(** * Django health watcher: a shallow embedding of [health_watcher.py]

    The script probes a fixed list of HTTP endpoints, logs one line per
    target and one summary line per pass, sleeps, and repeats forever.

    The Python code is embedded as functions in a small monad that reads
    an environment (process environment variables, the answers of the
    network, signals), threads a cursor into those answers, and writes the
    observable events (log records, GET attempts, sleeps) in program
    order.  Exceptions are an explicit result.  The unbounded [while True]
    is run with a bound on the number of passes; non-termination is the
    statement that every bound is reached with the program still inside
    the loop.

    What is taken from the runtime rather than from the script:
    - [logging] calls write their record and do not raise;
    - [str(e)] is the message of the exception;
    - [requests.get] returns a response or raises, as the environment
      decides; a signal shows as a [KeyboardInterrupt] raised by the
      request or by the sleep, the two calls that block;
    - [int] on a string follows CPython 3.11 with its default settings
      (no PYTHONINTMAXSTRDIGITS, UTF-8 for the process environment):
      Unicode decimal digits and whitespace of Unicode 14 are accepted,
      and a literal of more than 4300 digits is refused; the text of the
      [ValueError] that it raises is taken from the environment;
    - [time.sleep] follows CPython 3.11 on Linux: it refuses a length
      whose nanoseconds do not fit 64 bits with [OverflowError], a
      negative length with [ValueError], and a length that carries the
      monotonic clock past 64 bits of nanoseconds with [OSError]. *)

From Stdlib Require Import ZArith List String Ascii Bool Lia DecimalString.
Import ListNotations.
Local Open Scope string_scope.
Local Open Scope Z_scope.

(* ===================================================================== *)
(** ** Python values used by the script *)

(** The exception classes that the script can meet.  The first seven
    derive from [Exception]; [KeyboardInterrupt] and [SystemExit] derive from
    [BaseException] only, so that [except Exception] lets them through. *)
Inductive exc_class : Type :=
| Timeout              (* requests.exceptions.Timeout *)
| ConnectionError      (* requests.exceptions.ConnectionError: refused, DNS *)
| InvalidURL           (* requests.exceptions.InvalidURL / MissingSchema *)
| OtherException       (* any other subclass of Exception *)
| ValueError
| OverflowError
| OSError
| KeyboardInterrupt    (* SIGINT delivered to the interpreter *)
| SystemExit.

Record exception : Type := mkExc { exc_type : exc_class; exc_str : string }.

(** [isinstance(e, Exception)] *)
Definition isinstance_Exception (e : exception) : bool :=
  match exc_type e with
  | KeyboardInterrupt | SystemExit => false
  | _ => true
  end.

(** The part of a [requests.Response] that the script reads. *)
Record response : Type := mkResponse { status_code : Z }.

(** What one call of [requests.get] does: it returns a response or it
    raises. *)
Inductive get_outcome : Type :=
| Responds (r : response)
| Fails (e : exception).

(** [str(n)] for a Python int, as an f-string formats it. *)
Definition str_int (z : Z) : string := NilZero.string_of_int (Z.to_int z).
Definition str_nat (n : nat) : string := NilZero.string_of_uint (Nat.to_uint n).

(* ===================================================================== *)
(** ** [int(s)] on a string, base 10

    A string stands for a Python [str] by its UTF-8 bytes, which is how
    a value of the process environment reaches the script.  [int] maps
    Unicode whitespace and decimal digits to ASCII, strips the surrounding
    whitespace, refuses a literal of more than 4300 digits, and reads one
    optional sign and digits that single underscores may group. *)

(** Whitespace of the ASCII literal: space, tab, newline, vertical tab,
    form feed, carriage return. *)
Definition is_space (a : ascii) : bool :=
  let n := nat_of_ascii a in
  (Nat.eqb n 32 || (Nat.leb 9 n && Nat.leb n 13))%bool.

Definition digit_of (a : ascii) : option Z :=
  let n := nat_of_ascii a in
  if (Nat.leb 48 n && Nat.leb n 57)%bool then Some (Z.of_nat (n - 48)) else None.

Fixpoint lstrip (s : string) : string :=
  match s with
  | String a r => if is_space a then lstrip r else s
  | EmptyString => EmptyString
  end.

Fixpoint rstrip (s : string) : string :=
  match s with
  | String a r =>
      match rstrip r with
      | EmptyString => if is_space a then EmptyString else String a EmptyString
      | r' => String a r'
      end
  | EmptyString => EmptyString
  end.

(** Digits after the sign; [after_digit] says whether the previous
    character was a digit, which is where an underscore or the end of the
    literal is allowed. *)
Fixpoint int_digits (s : string) (acc : Z) (after_digit : bool) : option Z :=
  match s with
  | EmptyString => if after_digit then Some acc else None
  | String a r =>
      match digit_of a with
      | Some d => int_digits r (10 * acc + d) true
      | None =>
          if (Ascii.eqb a "_" && after_digit)%bool
          then int_digits r acc false
          else None
      end
  end.

(** *** From the bytes to the characters

    Strict UTF-8: shortest form only, no surrogate, nothing above
    U+10FFFF.  A byte that is not part of such a sequence reaches the
    script as a lone surrogate, which [int] refuses, so that the whole
    string is refused here. *)
Definition byte_of (a : ascii) : Z := Z.of_N (N_of_ascii a).

Definition between (lo b hi : Z) : bool := (lo <=? b) && (b <=? hi).

Definition continuation (b : Z) : bool := between 128 b 191.

Definition second_of_three (b0 b1 : Z) : bool :=
  if b0 =? 224 then between 160 b1 191
  else if b0 =? 237 then between 128 b1 159
  else continuation b1.

Definition second_of_four (b0 b1 : Z) : bool :=
  if b0 =? 240 then between 144 b1 191
  else if b0 =? 244 then between 128 b1 143
  else continuation b1.

Fixpoint decode_utf8 (s : string) : option (list Z) :=
  match s with
  | EmptyString => Some []
  | String a0 r0 =>
      let b0 := byte_of a0 in
      if b0 <? 128 then option_map (cons b0) (decode_utf8 r0)
      else
        match r0 with
        | EmptyString => None
        | String a1 r1 =>
            let b1 := byte_of a1 in
            if between 194 b0 223 then
              if continuation b1
              then option_map (cons ((b0 - 192) * 64 + (b1 - 128))) (decode_utf8 r1)
              else None
            else
              match r1 with
              | EmptyString => None
              | String a2 r2 =>
                  let b2 := byte_of a2 in
                  if between 224 b0 239 then
                    if second_of_three b0 b1 && continuation b2
                    then option_map
                           (cons ((b0 - 224) * 4096 + (b1 - 128) * 64 + (b2 - 128)))
                           (decode_utf8 r2)
                    else None
                  else
                    match r2 with
                    | EmptyString => None
                    | String a3 r3 =>
                        let b3 := byte_of a3 in
                        if between 240 b0 244 && second_of_four b0 b1
                           && continuation b2 && continuation b3
                        then option_map
                               (cons ((b0 - 240) * 262144 + (b1 - 128) * 4096
                                      + (b2 - 128) * 64 + (b3 - 128)))
                               (decode_utf8 r3)
                        else None
                    end
              end
        end
  end.

(** The characters above U+007F that [str.isspace] holds for. *)
Definition UNICODE_SPACES : list Z :=
  [133; 160; 5760; 8192; 8193; 8194; 8195; 8196; 8197; 8198; 8199; 8200;
   8201; 8202; 8232; 8233; 8239; 8287; 12288].

(** The digit zero of every run of ten decimal digits above U+007F. *)
Definition DECIMAL_ZEROS : list Z :=
  [1632; 1776; 1984; 2406; 2534; 2662; 2790; 2918; 3046; 3174; 3302; 3430;
   3558; 3664; 3792; 3872; 4160; 4240; 6112; 6160; 6470; 6608; 6784; 6800;
   6992; 7088; 7232; 7248; 42528; 43216; 43264; 43472; 43504; 43600; 44016;
   65296; 66720; 68912; 69734; 69872; 69942; 70096; 70384; 70736; 70864;
   71248; 71360; 71472; 71904; 72016; 72784; 73040; 73120; 92768; 92864;
   93008; 120782; 120792; 120802; 120812; 120822; 123200; 123632; 125264;
   130032].

Definition unicode_space (cp : Z) : bool := existsb (Z.eqb cp) UNICODE_SPACES.

Definition unicode_decimal (cp : Z) : option Z :=
  option_map (fun zero => cp - zero)
    (find (fun zero => between zero cp (zero + 9)) DECIMAL_ZEROS).

(** What [int] makes of one character before parsing: ASCII stays,
    whitespace becomes a space, a decimal digit becomes its ASCII digit,
    anything else is refused. *)
Definition ascii_of_code (cp : Z) : option Z :=
  if cp <? 127 then Some cp
  else if unicode_space cp then Some 32
  else option_map (Z.add 48) (unicode_decimal cp).

Fixpoint to_ascii (cps : list Z) : option string :=
  match cps with
  | [] => Some EmptyString
  | cp :: r =>
      match ascii_of_code cp, to_ascii r with
      | Some b, Some t => Some (String (ascii_of_N (Z.to_N b)) t)
      | _, _ => None
      end
  end.

(** The default of [sys.int_info.default_max_str_digits]. *)
Definition MAX_STR_DIGITS : Z := 4300.

(** The digits of a literal, underscores and sign left out. *)
Fixpoint count_digits (s : string) : Z :=
  match s with
  | EmptyString => 0
  | String a r =>
      match digit_of a with
      | Some _ => 1 + count_digits r
      | None => count_digits r
      end
  end.

(** The ASCII literal: stripped, not longer than the limit, then an
    optional sign and the digits. *)
Definition int_of_ascii (s : string) : option Z :=
  let t := rstrip (lstrip s) in
  if MAX_STR_DIGITS <? count_digits t then None
  else
    match t with
    | String "-" r => option_map Z.opp (int_digits r 0 false)
    | String "+" r => int_digits r 0 false
    | _ => int_digits t 0 false
    end.

(** [int(s)], [None] standing for [ValueError]. *)
Definition int_of_str (s : string) : option Z :=
  match decode_utf8 s with
  | Some cps =>
      match to_ascii cps with
      | Some t => int_of_ascii t
      | None => None
      end
  | None => None
  end.

(* ===================================================================== *)
(** ** The world outside the script *)

Inductive level : Type := INFO | WARNING | ERROR.

(** Observable events, in program order.  A log record is its level and
    its message (the handler's timestamp is left out). *)
Inductive event : Type :=
| EvLog (lvl : level) (msg : string)
| EvGetenv (key : string)
| EvGet (url : string) (timeout : Z)
| EvSleep (secs : Z).

(** What the script cannot decide: the process environment, the outcome
    of the k-th GET of the process (to the URL it is sent to), whether the
    k-th sleep is cut short by SIGINT, the reading of the monotonic clock,
    in nanoseconds, when the k-th sleep is asked for, and the text of the
    [ValueError] with which [int] refuses a string. *)
Record environment : Type := mkEnv {
  environ : string -> option string;
  http_get : nat -> string -> get_outcome;
  sleep_interrupted : nat -> bool;
  monotonic_ns : nat -> Z;
  literal_error : string -> string
}.

(** How many GETs and sleeps the process has made so far. *)
Record cursor : Type := mkCursor { n_get : nat; n_sleep : nat }.

Definition start : cursor := mkCursor 0 0.

Inductive result (A : Type) : Type :=
| Ok (a : A)
| Raise (e : exception).
Arguments Ok {A} a.
Arguments Raise {A} e.

Definition M (A : Type) : Type :=
  environment -> cursor -> result A * cursor * list event.

Definition ret {A} (a : A) : M A := fun _ c => (Ok a, c, []).

Definition raise {A} (e : exception) : M A := fun _ c => (Raise e, c, []).

Definition bind {A B} (m : M A) (k : A -> M B) : M B :=
  fun env c =>
    match m env c with
    | (Ok a, c1, evs1) =>
        let '(r, c2, evs2) := k a env c1 in (r, c2, (evs1 ++ evs2)%list)
    | (Raise e, c1, evs1) => (Raise e, c1, evs1)
    end.

Declare Scope py_scope.
Delimit Scope py_scope with py.
Notation "x <- m ;; k" := (bind m (fun x => k))
  (at level 61, m at next level, right associativity) : py_scope.
Notation "m ;; k" := (bind m (fun _ => k))
  (at level 61, right associativity) : py_scope.
Local Open Scope py_scope.

(** [try: body  except Exception as e: handler e] *)
Definition try_except_Exception {A} (body : M A) (handler : exception -> M A) : M A :=
  fun env c =>
    match body env c with
    | (Raise e, c1, evs1) =>
        if isinstance_Exception e
        then let '(r, c2, evs2) := handler e env c1 in (r, c2, (evs1 ++ evs2)%list)
        else (Raise e, c1, evs1)
    | done => done
    end.

(** *** Library calls *)

Definition emit (ev : event) : M unit := fun _ c => (Ok tt, c, [ev]).

Definition logger_info (msg : string) : M unit := emit (EvLog INFO msg).
Definition logger_warning (msg : string) : M unit := emit (EvLog WARNING msg).
Definition logger_error (msg : string) : M unit := emit (EvLog ERROR msg).

(** [requests.get(url, timeout=t)]: one attempt, answered by the
    environment. *)
Definition requests_get (url : string) (timeout : Z) : M response :=
  fun env c =>
    let c' := mkCursor (S (n_get c)) (n_sleep c) in
    match http_get env (n_get c) url with
    | Responds r => (Ok r, c', [EvGet url timeout])
    | Fails e => (Raise e, c', [EvGet url timeout])
    end.

(** [os.getenv(key, default)] *)
Definition os_getenv (key default : string) : M string :=
  fun env c =>
    (Ok (match environ env key with Some v => v | None => default end),
     c, [EvGetenv key]).

(** [int(s)] *)
Definition int_ (s : string) : M Z :=
  fun env c =>
    match int_of_str s with
    | Some z => (Ok z, c, [])
    | None => (Raise (mkExc ValueError (literal_error env s)), c, [])
    end.

(** The largest number of whole seconds whose nanoseconds fit the
    interpreter's 64-bit time type. *)
Definition SLEEP_MAX : Z := (2 ^ 63 - 1) / 1000000000.

Definition INT64_MAX : Z := 2 ^ 63 - 1.

(** [time.sleep(secs)] for an int.  The length is refused when its
    nanoseconds do not fit 64 bits, when it is negative, and when the
    deadline, the monotonic clock plus the length, does not fit 64 bits
    of nanoseconds, which the system call answers with EINVAL.
    Otherwise the process sleeps, unless SIGINT cuts the sleep short. *)
Definition time_sleep (secs : Z) : M unit :=
  fun env c =>
    if ((secs <? - SLEEP_MAX) || (SLEEP_MAX <? secs))%bool then
      (Raise (mkExc OverflowError "timestamp too large to convert to C _PyTime_t"),
       c, [])
    else if secs <? 0 then
      (Raise (mkExc ValueError "sleep length must be non-negative"), c, [])
    else if INT64_MAX <? secs * 1000000000 + monotonic_ns env (n_sleep c) then
      (Raise (mkExc OSError "[Errno 22] Invalid argument"), c, [])
    else
      let c' := mkCursor (n_get c) (S (n_sleep c)) in
      if sleep_interrupted env (n_sleep c)
      then (Raise (mkExc KeyboardInterrupt EmptyString), c', [EvSleep secs])
      else (Ok tt, c', [EvSleep secs]).

(* ===================================================================== *)
(** ** The script *)

(** [check_health(app_name, url)] *)
Definition check_health (app_name url : string) : M bool :=
  try_except_Exception
    (response <- requests_get url 10 ;;
     if status_code response =? 200 then
       logger_info (app_name ++ ": HEALTHY") ;;
       ret true
     else
       logger_warning
         (app_name ++ ": UNHEALTHY (HTTP " ++ str_int (status_code response) ++ ")") ;;
       ret false)
    (fun e =>
       logger_error (app_name ++ ": ERROR - " ++ exc_str e) ;;
       ret false).

(** The list [apps] of [main]. *)
Definition apps : list (string * string) :=
  [ ("Jopi", "http://jopi_app:8000/health/");
    ("Synergas", "http://synergas_app:8000/health/") ].

(** [for app_name, url in apps: if check_health(app_name, url):
    healthy_count += 1], from the current value of [healthy_count]. *)
Fixpoint for_apps (l : list (string * string)) (healthy_count : nat) : M nat :=
  match l with
  | [] => ret healthy_count
  | (app_name, url) :: rest =>
      healthy <- check_health app_name url ;;
      for_apps rest (if healthy then S healthy_count else healthy_count)
  end.

(** The summary branch after the [for] loop. *)
Definition log_summary (l : list (string * string)) (healthy_count : nat) : M unit :=
  if Nat.eqb healthy_count (List.length l) then
    logger_info "All Django apps are healthy"
  else
    logger_warning
      ("Some Django apps are unhealthy! (" ++ str_nat healthy_count ++ "/"
         ++ str_nat (List.length l) ++ " healthy)").

(** The body of [while True]. *)
Definition loop_body (l : list (string * string)) (check_interval : Z) : M unit :=
  healthy_count <- for_apps l 0%nat ;;
  log_summary l healthy_count ;;
  time_sleep check_interval.

(** [while True: body], cut after [fuel] passes.  The loop has no
    [break]: a bounded run either is still inside the loop when the bound
    is reached or was left by an exception. *)
Inductive run : Type :=
| StillLooping
| Uncaught (e : exception).

Fixpoint while_True (fuel : nat) (body : M unit)
    (env : environment) (c : cursor) : run * cursor * list event :=
  match fuel with
  | O => (StillLooping, c, [])
  | S fuel' =>
      match body env c with
      | (Ok _, c1, evs1) =>
          let '(r, c2, evs2) := while_True fuel' body env c1 in
          (r, c2, (evs1 ++ evs2)%list)
      | (Raise e, c1, evs1) => (Uncaught e, c1, evs1)
      end
  end.

(** The statements of [main] before the loop; the value is
    [check_interval]. *)
Definition startup : M Z :=
  logger_info "Starting Django health watcher..." ;;
  v <- os_getenv "HEALTH_CHECK_INTERVAL" "60" ;;
  int_ v.

(** [main()], run from the start of the process for at most [fuel]
    passes of the loop. *)
Definition main (fuel : nat) (env : environment) : run * cursor * list event :=
  match startup env start with
  | (Ok check_interval, c1, evs1) =>
      let '(r, c2, evs2) := while_True fuel (loop_body apps check_interval) env c1 in
      (r, c2, (evs1 ++ evs2)%list)
  | (Raise e, c1, evs1) => (Uncaught e, c1, evs1)
  end.

(* ===================================================================== *)
(** ** Test runs *)

(** A string from its bytes, and a string repeated. *)
Fixpoint of_bytes (l : list nat) : string :=
  match l with
  | [] => EmptyString
  | b :: r => String (ascii_of_nat b) (of_bytes r)
  end.

Fixpoint replicate (n : nat) (s : string) : string :=
  match n with
  | O => EmptyString
  | S m => s ++ replicate m s
  end.

(** A process that has been up for one hour at every sleep. *)
Definition one_hour_up (_ : nat) : Z := 3600 * 1000000000.

(** The text of the [ValueError] of [int] for a string of printable
    ASCII characters without quote or backslash, which is what the test
    runs configure. *)
Definition plain_literal_error (s : string) : string :=
  "invalid literal for int() with base 10: '" ++ s ++ "'".

Definition env_of (conf : option string) (answers : string -> get_outcome) : environment :=
  mkEnv (fun k => if String.eqb k "HEALTH_CHECK_INTERVAL" then conf else None)
        (fun _ url => answers url)
        (fun _ => false)
        one_hour_up
        plain_literal_error.

Definition status (s : Z) : get_outcome := Responds (mkResponse s).

Definition jopi_ok_synergas_503 (url : string) : get_outcome :=
  if String.eqb url "http://synergas_app:8000/health/" then status 503 else status 200.

Definition all_ok (_ : string) : get_outcome := status 200.

Definition read_timeout : exception :=
  mkExc Timeout
    "HTTPConnectionPool(host='jopi_app', port=8000): Read timed out. (read timeout=10)".

Definition jopi_ok_synergas_refused (url : string) : get_outcome :=
  if String.eqb url "http://synergas_app:8000/health/"
  then Fails (mkExc ConnectionError "Connection refused")
  else status 200.

Definition jopi_times_out (url : string) : get_outcome :=
  if String.eqb url "http://jopi_app:8000/health/" then Fails read_timeout else status 200.

(** Both targets healthy, and an interval that parses but is negative. *)
Definition negative_interval_env : environment := env_of (Some "-1") all_ok.

(** Ctrl-C while the first request is in flight. *)
Definition interrupted_env : environment :=
  mkEnv (fun _ => None)
        (fun _ _ => Fails (mkExc KeyboardInterrupt EmptyString))
        (fun _ => false)
        one_hour_up
        plain_literal_error.


(* ===================================================================== *)
(** ** Vocabulary of the statements *)

(** [sub] occurs in [s]. *)
Definition contains (sub s : string) : Prop :=
  exists pre post, s = pre ++ sub ++ post.

(** The outcome is a completed request with status 200. *)
Definition healthy (o : get_outcome) : bool :=
  match o with
  | Responds r => status_code r =? 200
  | Fails _ => false
  end.

(** The outcome is a response or an exception that [except Exception]
    catches: anything but a [BaseException] such as [KeyboardInterrupt]. *)
Definition handled (o : get_outcome) : bool :=
  match o with
  | Responds _ => true
  | Fails e => isinstance_Exception e
  end.

(** The outcomes that the environment gives to one pass over the targets
    [l] when the pass starts at GET number [k]: one per target, in order. *)
Fixpoint outcomes (env : environment) (k : nat) (l : list (string * string))
    : list get_outcome :=
  match l with
  | [] => []
  | (_, url) :: rest => http_get env k url :: outcomes env (S k) rest
  end.

Definition count_healthy (os : list get_outcome) : nat :=
  List.length (filter healthy os).

(** Projections of a list of events. *)
Fixpoint urls_requested (evs : list event) : list string :=
  match evs with
  | [] => []
  | EvGet url _ :: t => url :: urls_requested t
  | _ :: t => urls_requested t
  end.

Fixpoint log_records (evs : list event) : list (level * string) :=
  match evs with
  | [] => []
  | EvLog lvl msg :: t => (lvl, msg) :: log_records t
  | _ :: t => log_records t
  end.

Fixpoint sleeps (evs : list event) : list Z :=
  match evs with
  | [] => []
  | EvSleep secs :: t => secs :: sleeps t
  | _ :: t => sleeps t
  end.

Fixpoint env_reads (evs : list event) : list string :=
  match evs with
  | [] => []
  | EvGetenv key :: t => key :: env_reads t
  | _ :: t => env_reads t
  end.

(** The value that [os.getenv('HEALTH_CHECK_INTERVAL', '60')] returns. *)
Definition configured (env : environment) : string :=
  match environ env "HEALTH_CHECK_INTERVAL" with
  | Some v => v
  | None => "60"
  end.

(** No signal reaches the process: every failed request fails with an
    [Exception], and no sleep is interrupted. *)
Definition no_signal (env : environment) : Prop :=
  (forall k url, handled (http_get env k url) = true) /\
  (forall k, sleep_interrupted env k = false).

(** A signal does reach the process at some request or some sleep. *)
Definition signal_seen (env : environment) : Prop :=
  (exists k url, handled (http_get env k url) = false) \/
  (exists k, sleep_interrupted env k = true).

(** [time.sleep] takes the length when it is asked for the k-th sleep of
    the process: the length is not negative, its nanoseconds fit 64 bits,
    and so does the deadline on the monotonic clock. *)
Definition sleep_accepts (env : environment) (k : nat) (secs : Z) : bool :=
  (0 <=? secs) && (secs <=? SLEEP_MAX)
  && (secs * 1000000000 + monotonic_ns env k <=? INT64_MAX).

(** [time.sleep] refuses the length whatever the clock reads. *)
Definition never_accepted (secs : Z) : bool :=
  (secs <? 0) || (SLEEP_MAX <? secs).

(** The cursor after one more sleep. *)
Definition after_sleep (c : cursor) : cursor := mkCursor (n_get c) (S (n_sleep c)).

(** The cursor after one more GET. *)
Definition after_get (c : cursor) : cursor := mkCursor (S (n_get c)) (n_sleep c).

(** The calls of [check_health] of one pass over [l] from cursor [c]: one
    per target, in the order of the list, each with what it returned, the
    cursor it left and the events it wrote. *)
Fixpoint invocations (l : list (string * string)) (env : environment) (c : cursor)
    : list (result bool * cursor * list event) :=
  match l with
  | [] => []
  | (app_name, url) :: rest =>
      check_health app_name url env c :: invocations rest env (after_get c)
  end.

Definition returned_True (x : result bool * cursor * list event) : bool :=
  match x with
  | (Ok true, _, _) => true
  | _ => false
  end.

(** The message has a colon, as every per-target line has. *)
Fixpoint has_colon (s : string) : bool :=
  match s with
  | EmptyString => false
  | String a r => (Ascii.eqb a ":" || has_colon r)%bool
  end.

(** The summary record for a tally [H] out of [N] targets, as the
    specification words it. *)
Definition summary_record (H N : nat) : event :=
  if Nat.eqb H N
  then EvLog INFO "All Django apps are healthy"
  else EvLog WARNING
         ("Some Django apps are unhealthy! (" ++ str_nat H ++ "/" ++ str_nat N
            ++ " healthy)").

(** Two outcomes that [except Exception] handles and that agree on being
    healthy or not. *)
Definition same_verdict (o1 o2 : get_outcome) : Prop :=
  handled o1 = true /\ handled o2 = true /\ healthy o1 = healthy o2.

(** The exception with which [time.sleep] refuses a length that it does
    not accept. *)
Definition sleep_refusal (secs : Z) : exc_class :=
  if ((secs <? - SLEEP_MAX) || (SLEEP_MAX <? secs))%bool then OverflowError
  else if secs <? 0 then ValueError
  else OSError.

(** [n] passes over [l] that run to their end, from cursor [c] to cursor
    [c']: in each one the probes of all targets, then the summary record
    of their tally, then a sleep of [z] that is taken and not
    interrupted. *)
Inductive passes (l : list (string * string)) (z : Z) (env : environment)
    : nat -> cursor -> list event -> cursor -> Prop :=
| passes_none : forall c, passes l z env 0 c [] c
| passes_more : forall n c H c1 probes rest c',
    for_apps l 0 env c = (Ok H, c1, probes) ->
    sleep_accepts env (n_sleep c1) z = true ->
    sleep_interrupted env (n_sleep c1) = false ->
    passes l z env n (after_sleep c1) rest c' ->
    passes l z env (S n) c
      (probes ++ summary_record H (List.length l) :: EvSleep z :: rest)%list c'.

(** The result type of the specification's data model, written from its
    words: Healthy, Unhealthy with the status code, Error with the
    message.  The script has no such type: [check_health] returns a
    [bool]. *)
Inductive HealthResult : Type :=
| Healthy
| Unhealthy (code : Z)
| Error (message : string).

(* ===================================================================== *)
(** ** Vocabulary of the further properties *)

(** A GET goes to a URL of the list [l], with the timeout of 10 seconds;
    other events are not constrained. *)
Definition request_ok (l : list (string * string)) (ev : event) : Prop :=
  match ev with
  | EvGet url timeout => In url (map snd l) /\ timeout = 10
  | _ => True
  end.

(** A log record is at info level. *)
Definition only_info (ev : event) : Prop :=
  match ev with
  | EvLog lvl _ => lvl = INFO
  | _ => True
  end.

(** A log record is not at error level. *)
Definition not_error (ev : event) : Prop :=
  match ev with
  | EvLog ERROR _ => False
  | _ => True
  end.

(** Every request of the process is answered with status 200. *)
Definition always_healthy (env : environment) : Prop :=
  forall k url, healthy (http_get env k url) = true.

(** Every request of the process is answered, with whatever status. *)
Definition always_responds (env : environment) : Prop :=
  forall k url, exists r, http_get env k url = Responds r.

(** What [main] writes before the loop. *)
Definition startup_events : list event :=
  [EvLog INFO "Starting Django health watcher...";
   EvGetenv "HEALTH_CHECK_INTERVAL"].

(** The log record [p] is the line of target [a] for outcome [o]: it
    starts with the name of the target and a colon, and it is at info
    level exactly when the outcome is healthy, at error level exactly when
    the request raised. *)
Definition line_for (a : string * string) (o : get_outcome)
    (p : level * string) : Prop :=
  (exists detail, snd p = fst a ++ ": " ++ detail)
  /\ (fst p = INFO <-> healthy o = true)
  /\ (fst p = ERROR <-> exists e, o = Fails e).

(** Ctrl-C while the request to the second target is in flight. *)
Definition interrupted_at_synergas : environment :=
  mkEnv (fun _ => None)
        (fun _ url =>
           if String.eqb url "http://synergas_app:8000/health/"
           then Fails (mkExc KeyboardInterrupt EmptyString)
           else status 200)
        (fun _ => false)
        one_hour_up
        plain_literal_error.

(** The four ways a call can go: status 200, another status, a caught
    exception, an exception that is let through. *)
Ltac outcome_cases env c url :=
  let r := fresh "r" in
  let e := fresh "e" in
  destruct (http_get env (n_get c) url) as [r | e];
  [ destruct (status_code r =? 200) | destruct (isinstance_Exception e) ].

(* ===================================================================== *)
(** ** Strings *)

Lemma contains_prefix : forall sub post, contains sub (sub ++ post).
Proof. intros sub post. exists EmptyString, post. reflexivity. Qed.

Lemma contains_append_l : forall sub pre s, contains sub s -> contains sub (pre ++ s).
Proof.
  intros sub pre s (p & q & ->). exists (pre ++ p), q.
  induction pre as [|a pre IH]; simpl; [reflexivity | now rewrite IH].
Qed.

Lemma contains_middle : forall sub pre post, contains sub (pre ++ sub ++ post).
Proof. intros. apply contains_append_l, contains_prefix. Qed.

Lemma contains_self : forall sub, contains sub sub.
Proof.
  intros sub. exists EmptyString, EmptyString. simpl.
  induction sub as [|a sub IH]; simpl; [reflexivity | now rewrite <- IH].
Qed.

(* ===================================================================== *)
(** ** [check_health], branch by branch *)

Lemma check_health_eq : forall app_name url env c,
  check_health app_name url env c =
  match http_get env (n_get c) url with
  | Responds r =>
      if status_code r =? 200
      then (Ok true, after_get c,
            [EvGet url 10; EvLog INFO (app_name ++ ": HEALTHY")])
      else (Ok false, after_get c,
            [EvGet url 10;
             EvLog WARNING
               (app_name ++ ": UNHEALTHY (HTTP " ++ str_int (status_code r) ++ ")")])
  | Fails e =>
      if isinstance_Exception e
      then (Ok false, after_get c,
            [EvGet url 10; EvLog ERROR (app_name ++ ": ERROR - " ++ exc_str e)])
      else (Raise e, after_get c, [EvGet url 10])
  end.
Proof.
  intros app_name url env c.
  unfold check_health, try_except_Exception, bind, requests_get, after_get.
  destruct (http_get env (n_get c) url) as [r | e].
  - destruct (status_code r =? 200); reflexivity.
  - destruct (isinstance_Exception e); reflexivity.
Qed.

(** C3.  A target whose GET completes with status 200: [check_health]
    returns [True] (Healthy), after one GET attempt, and logs exactly one
    record, at info level, the line "{name}: HEALTHY", which contains the
    target name. *)
Theorem check_health_200 :
  forall app_name url env c r,
    http_get env (n_get c) url = Responds r ->
    status_code r = 200 ->
    check_health app_name url env c =
      (Ok true, after_get c, [EvGet url 10; EvLog INFO (app_name ++ ": HEALTHY")])
    /\ log_records (snd (check_health app_name url env c)) =
         [(INFO, app_name ++ ": HEALTHY")]
    /\ contains app_name (app_name ++ ": HEALTHY").
Proof.
  intros app_name url env c r Hget H200.
  rewrite check_health_eq, Hget, H200. simpl.
  repeat split. apply contains_prefix.
Qed.

Lemma check_health_200_witness :
  check_health "Jopi" "http://jopi_app:8000/health/"
    (env_of None jopi_ok_synergas_503) start =
    (Ok true, after_get start,
     [EvGet "http://jopi_app:8000/health/" 10; EvLog INFO "Jopi: HEALTHY"]).
Proof.
  apply (check_health_200 "Jopi" "http://jopi_app:8000/health/"
           (env_of None jopi_ok_synergas_503) start (mkResponse 200));
    reflexivity.
Defined.

(** C1.  A target whose GET raises an [Exception] (timeout, connection
    error, DNS failure, any other exception of the request):
    [check_health] catches it and returns normally (the value is [False]),
    having logged one record at error level, "{name}: ERROR - {str(e)}",
    which contains the target name and the description of the error; the
    [for] loop goes on with the remaining targets and an unchanged
    tally. *)
Theorem check_health_catches_fault :
  forall app_name url env c e rest healthy_count,
    http_get env (n_get c) url = Fails e ->
    isinstance_Exception e = true ->
    let msg := app_name ++ ": ERROR - " ++ exc_str e in
    check_health app_name url env c =
      (Ok false, after_get c, [EvGet url 10; EvLog ERROR msg])
    /\ contains app_name msg
    /\ contains (exc_str e) msg
    /\ for_apps ((app_name, url) :: rest) healthy_count env c =
         (let '(r, c2, evs) := for_apps rest healthy_count env (after_get c) in
          (r, c2, [EvGet url 10; EvLog ERROR msg] ++ evs)%list).
Proof.
  intros app_name url env c e rest hc Hget Hexc msg.
  assert (Hch : check_health app_name url env c =
                (Ok false, after_get c, [EvGet url 10; EvLog ERROR msg])).
  { rewrite check_health_eq, Hget, Hexc. reflexivity. }
  split; [exact Hch|].
  split; [apply contains_prefix|].
  split; [do 2 apply contains_append_l; apply contains_self|].
  simpl. unfold bind. rewrite Hch.
  destruct (for_apps rest hc env (after_get c)) as [[r c2] evs]. reflexivity.
Qed.

Lemma check_health_catches_fault_witness :
  check_health "Jopi" "http://jopi_app:8000/health/" (env_of None jopi_times_out) start =
    (Ok false, after_get start,
     [EvGet "http://jopi_app:8000/health/" 10;
      EvLog ERROR ("Jopi: ERROR - " ++ exc_str read_timeout)])
  /\ fst (fst (for_apps apps 0 (env_of None jopi_times_out) start)) = Ok 1%nat.
Proof.
  destruct (check_health_catches_fault "Jopi" "http://jopi_app:8000/health/"
              (env_of None jopi_times_out) start read_timeout (tl apps) 0%nat
              eq_refl eq_refl) as (Hret & _ & _ & Hloop).
  split; [exact Hret|].
  change apps with (("Jopi", "http://jopi_app:8000/health/") :: tl apps).
  rewrite Hloop. reflexivity.
Defined.

(** C4 as the specification words it, refuted: the value that
    [check_health] returns for a non-200 status does not carry the status
    code.  Statuses 404 and 503 give the same returned value, so no
    reading of that value yields [Unhealthy 404] for the one and
    [Unhealthy 503] for the other. *)
Lemma check_health_return_drops_status :
  ~ exists decode : bool -> HealthResult,
      forall S b c' evs,
        S <> 200 ->
        check_health "Synergas" "http://synergas_app:8000/health/"
          (env_of None (fun _ => status S)) start = (Ok b, c', evs) ->
        decode b = Unhealthy S.
Proof.
  intros [decode H].
  assert (H404 := H 404 false _ _ ltac:(discriminate) eq_refl).
  assert (H503 := H 503 false _ _ ltac:(discriminate) eq_refl).
  rewrite H404 in H503. discriminate H503.
Qed.

(** C4, amended.  A target whose GET completes with a status S other than
    200: [check_health] returns [False], whatever S is, after one GET
    attempt, and logs exactly one record, at warning level, the line
    "{name}: UNHEALTHY (HTTP {S})", which contains the target name and S
    in decimal. *)
Theorem check_health_non_200 :
  forall app_name url env c r,
    http_get env (n_get c) url = Responds r ->
    status_code r <> 200 ->
    let msg := app_name ++ ": UNHEALTHY (HTTP " ++ str_int (status_code r) ++ ")" in
    check_health app_name url env c =
      (Ok false, after_get c, [EvGet url 10; EvLog WARNING msg])
    /\ contains app_name msg
    /\ contains (str_int (status_code r)) msg.
Proof.
  intros app_name url env c r Hget Hne msg.
  rewrite check_health_eq, Hget.
  destruct (Z.eqb_spec (status_code r) 200) as [E | _]; [contradiction|].
  split; [reflexivity|].
  split; [apply contains_prefix|].
  unfold msg. do 2 apply contains_append_l. apply contains_prefix.
Qed.

Lemma check_health_non_200_witness :
  check_health "Synergas" "http://synergas_app:8000/health/"
    (env_of None jopi_ok_synergas_503) start =
    (Ok false, after_get start,
     [EvGet "http://synergas_app:8000/health/" 10;
      EvLog WARNING "Synergas: UNHEALTHY (HTTP 503)"]).
Proof.
  apply (check_health_non_200 "Synergas" "http://synergas_app:8000/health/"
           (env_of None jopi_ok_synergas_503) start (mkResponse 503));
    [reflexivity | discriminate].
Defined.

(* ===================================================================== *)
(** ** The [for] loop over the targets *)

Lemma check_health_cursor : forall app_name url env c,
  snd (fst (check_health app_name url env c)) = after_get c.
Proof.
  intros. rewrite check_health_eq.
  outcome_cases env c url; reflexivity.
Qed.

Lemma check_health_result : forall app_name url env c,
  fst (fst (check_health app_name url env c)) =
  match http_get env (n_get c) url with
  | Fails e => if isinstance_Exception e then Ok false else Raise e
  | o => Ok (healthy o)
  end.
Proof.
  intros. rewrite check_health_eq. unfold healthy.
  outcome_cases env c url; reflexivity.
Qed.

Lemma check_health_projections : forall app_name url env c,
  let evs := snd (check_health app_name url env c) in
  urls_requested evs = [url] /\ sleeps evs = [] /\ env_reads evs = [] /\
  (List.length (log_records evs) <= 1)%nat.
Proof.
  intros. unfold evs. rewrite check_health_eq.
  outcome_cases env c url; simpl; repeat split; lia.
Qed.

Lemma urls_requested_app : forall a b,
  urls_requested (a ++ b) = (urls_requested a ++ urls_requested b)%list.
Proof.
  induction a as [|[] a IH]; intros b; simpl; rewrite ?IH; reflexivity.
Qed.

Lemma sleeps_app : forall a b, sleeps (a ++ b) = (sleeps a ++ sleeps b)%list.
Proof.
  induction a as [|[] a IH]; intros b; simpl; rewrite ?IH; reflexivity.
Qed.

Lemma env_reads_app : forall a b,
  env_reads (a ++ b) = (env_reads a ++ env_reads b)%list.
Proof.
  induction a as [|[] a IH]; intros b; simpl; rewrite ?IH; reflexivity.
Qed.

Lemma log_records_app : forall a b,
  log_records (a ++ b) = (log_records a ++ log_records b)%list.
Proof.
  induction a as [|[] a IH]; intros b; simpl; rewrite ?IH; reflexivity.
Qed.

(** One step of the loop, in terms of the call it makes. *)
Lemma for_apps_cons : forall app_name url rest hc env c,
  for_apps ((app_name, url) :: rest) hc env c =
  match check_health app_name url env c with
  | (Ok b, _, evs1) =>
      let '(r, c2, evs2) :=
        for_apps rest (if b then S hc else hc) env (after_get c) in
      (r, c2, (evs1 ++ evs2)%list)
  | (Raise e, _, evs1) => (Raise e, after_get c, evs1)
  end.
Proof.
  intros. simpl. unfold bind.
  pose proof (check_health_cursor app_name url env c) as Hc.
  destruct (check_health app_name url env c) as [[[b | e] c1] evs1];
    simpl in Hc; subst c1; reflexivity.
Qed.

(** What a pass over the targets returns, in terms of the outcomes that
    the environment gave it. *)
Lemma for_apps_cases : forall l hc env c,
  let os := outcomes env (n_get c) l in
  let '(r, c1, evs) := for_apps l hc env c in
  sleeps evs = [] /\ env_reads evs = [] /\
  match r with
  | Ok H =>
      forallb handled os = true /\
      H = (hc + count_healthy os)%nat /\
      c1 = mkCursor (n_get c + List.length l) (n_sleep c) /\
      urls_requested evs = map snd l
  | Raise e => forallb handled os = false /\ isinstance_Exception e = false
  end.
Proof.
  induction l as [|[app_name url] rest IH]; intros hc env c.
  - simpl. destruct c as [g s]; simpl. repeat split.
    + unfold count_healthy; simpl; lia.
    + f_equal. lia.
  - cbv zeta. rewrite for_apps_cons.
    pose proof (check_health_result app_name url env c) as Hr.
    pose proof (check_health_projections app_name url env c) as (Hu & Hs & He & _).
    destruct (check_health app_name url env c) as [[r1 c1] evs1].
    simpl in Hr, Hu, Hs, He. simpl outcomes. unfold count_healthy. simpl filter.
    destruct (http_get env (n_get c) url) as [resp | e] eqn:Hget.
    + subst r1. simpl healthy.
      specialize (IH (if status_code resp =? 200 then S hc else hc) env (after_get c)).
      cbv zeta in IH.
      destruct (for_apps rest _ env (after_get c)) as [[r c2] evs2].
      destruct IH as (IHs & IHe & IHr).
      rewrite sleeps_app, env_reads_app, Hs, He, IHs, IHe.
      split; [reflexivity|]. split; [reflexivity|].
      destruct r as [H | e2].
      * destruct IHr as (Hall & HH & Hc & Hurls). simpl in Hall, HH, Hc.
        simpl forallb. rewrite Hall.
        split; [reflexivity|].
        split.
        { unfold count_healthy in HH.
          destruct (status_code resp =? 200); simpl; lia. }
        split.
        { rewrite Hc. simpl. f_equal. lia. }
        rewrite urls_requested_app, Hu, Hurls. reflexivity.
      * destruct IHr as (Hall & Hexc). simpl in Hall.
        simpl forallb. rewrite Hall. split; reflexivity || assumption.
    + simpl healthy. simpl forallb.
      change (handled (Fails e)) with (isinstance_Exception e).
      destruct (isinstance_Exception e) eqn:Hexc; subst r1.
      * specialize (IH hc env (after_get c)). cbv zeta in IH.
        destruct (for_apps rest _ env (after_get c)) as [[r c2] evs2].
        destruct IH as (IHs & IHe & IHr).
        rewrite sleeps_app, env_reads_app, Hs, He, IHs, IHe.
        split; [reflexivity|]. split; [reflexivity|].
        destruct r as [H | e2].
        -- destruct IHr as (Hall & HH & Hc & Hurls). simpl in Hall, HH, Hc.
           rewrite Hall. split; [reflexivity|].
           split; [exact HH|].
           split; [rewrite Hc; simpl; f_equal; lia|].
           rewrite urls_requested_app, Hu, Hurls. reflexivity.
        -- destruct IHr as (Hall & Hexc2). simpl in Hall.
           rewrite Hall. split; reflexivity || assumption.
      * repeat split; assumption.
Qed.

Lemma for_apps_invocations : forall l hc env c H c1 evs,
  for_apps l hc env c = (Ok H, c1, evs) ->
  evs = List.concat (map snd (invocations l env c)) /\
  H = (hc + List.length (filter returned_True (invocations l env c)))%nat.
Proof.
  induction l as [|[app_name url] rest IH]; intros hc env c H c1 evs Hrun.
  - simpl in Hrun. injection Hrun as <- _ <-. simpl. split; [reflexivity | lia].
  - rewrite for_apps_cons in Hrun. simpl invocations.
    destruct (check_health app_name url env c) as [[[b | e] c'] evs1];
      [|discriminate Hrun].
    destruct (for_apps rest (if b then S hc else hc) env (after_get c))
      as [[r c2] evs2] eqn:Hrest.
    injection Hrun as -> -> <-.
    destruct (IH _ _ _ _ _ _ Hrest) as (Hevs & HH).
    simpl. rewrite <- Hevs. split; [reflexivity|].
    destruct b; simpl; lia.
Qed.

Lemma invocations_length : forall l env c,
  List.length (invocations l env c) = List.length l.
Proof.
  induction l as [|[app_name url] rest IH]; intros env c; simpl;
    [reflexivity | now rewrite IH].
Qed.

(** C6.  In a pass that runs to its end, the events of the [for] loop are
    the events of its calls of [check_health], one call per target in the
    order of the list, each call making one GET attempt: the URLs
    requested are the URLs of the list, in order, and the cursor has
    advanced by the number of targets.  The tally is the number of calls
    that returned [True]. *)
Theorem for_apps_one_call_per_target :
  forall l env c H c1 evs,
    for_apps l 0 env c = (Ok H, c1, evs) ->
    let calls := invocations l env c in
    List.length calls = List.length l
    /\ evs = List.concat (map snd calls)
    /\ urls_requested evs = map snd l
    /\ n_get c1 = (n_get c + List.length l)%nat
    /\ H = List.length (filter returned_True calls).
Proof.
  intros l env c H c1 evs Hrun calls.
  destruct (for_apps_invocations _ _ _ _ _ _ _ Hrun) as (Hevs & HH).
  pose proof (for_apps_cases l 0%nat env c) as Hcases.
  cbv zeta in Hcases. rewrite Hrun in Hcases.
  destruct Hcases as (_ & _ & _ & _ & Hc & Hurls).
  split; [apply invocations_length|].
  split; [exact Hevs|].
  split; [exact Hurls|].
  split; [rewrite Hc; reflexivity | exact HH].
Qed.

Lemma for_apps_one_call_per_target_witness :
  urls_requested (snd (for_apps apps 0 (env_of None jopi_ok_synergas_503) start)) =
    ["http://jopi_app:8000/health/"; "http://synergas_app:8000/health/"]
  /\ List.length
       (filter returned_True
          (invocations apps (env_of None jopi_ok_synergas_503) start)) = 1%nat.
Proof.
  destruct (for_apps_one_call_per_target apps (env_of None jopi_ok_synergas_503)
              start 1%nat _ _ eq_refl) as (_ & _ & Hurls & _ & HH).
  split; [exact Hurls | symmetry; exact HH].
Defined.

Lemma same_verdict_count : forall os1 os2,
  Forall2 same_verdict os1 os2 ->
  forallb handled os1 = true /\ forallb handled os2 = true /\
  count_healthy os1 = count_healthy os2.
Proof.
  unfold count_healthy.
  induction 1 as [|o1 o2 os1 os2 (H1 & H2 & Hh) _ (IH1 & IH2 & IHc)]; simpl.
  - repeat split.
  - rewrite H1, H2, IH1, IH2, Hh. repeat split.
    destruct (healthy o2); simpl; congruence.
Qed.

(** C10.  What [check_health] returns is a [bool] and nothing else: for
    every outcome that it handles it returns [True] when the outcome is a
    response with status 200 and [False] otherwise, the same [False] for
    every other status and for every caught exception.  Two passes whose
    outcomes agree on healthy or not give the same tally, whatever the
    status codes and error messages were. *)
Theorem check_health_returns_bool_only :
  (forall app_name url env c,
      handled (http_get env (n_get c) url) = true ->
      fst (fst (check_health app_name url env c)) =
        Ok (healthy (http_get env (n_get c) url)))
  /\ (forall o, healthy o = true <-> exists r, o = Responds r /\ status_code r = 200)
  /\ (forall l hc env1 c1 env2 c2,
         Forall2 same_verdict
           (outcomes env1 (n_get c1) l) (outcomes env2 (n_get c2) l) ->
         fst (fst (for_apps l hc env1 c1)) = fst (fst (for_apps l hc env2 c2))).
Proof.
  split; [|split].
  - intros app_name url env c Hh. rewrite check_health_result.
    destruct (http_get env (n_get c) url) as [r | e]; [reflexivity|].
    simpl in Hh. rewrite Hh. reflexivity.
  - intros [r | e]; simpl; split.
    + intros H. exists r. split; [reflexivity | now apply Z.eqb_eq].
    + intros (r' & [= <-] & H). now apply Z.eqb_eq.
    + discriminate.
    + intros (r' & [=] & _).
  - intros l hc env1 c1 env2 c2 Hsame.
    destruct (same_verdict_count _ _ Hsame) as (Hall1 & Hall2 & Hcount).
    pose proof (for_apps_cases l hc env1 c1) as H1.
    pose proof (for_apps_cases l hc env2 c2) as H2.
    cbv zeta in H1, H2.
    destruct (for_apps l hc env1 c1) as [[[n1 | e1] d1] evs1];
      destruct (for_apps l hc env2 c2) as [[[n2 | e2] d2] evs2]; simpl;
      destruct H1 as (_ & _ & H1); destruct H2 as (_ & _ & H2).
    + destruct H1 as (_ & -> & _), H2 as (_ & -> & _). now rewrite Hcount.
    + destruct H2 as (H2 & _). congruence.
    + destruct H1 as (H1 & _). congruence.
    + destruct H1 as (H1 & _). congruence.
Qed.

Lemma check_health_returns_bool_only_witness :
  fst (fst (check_health "Synergas" "http://synergas_app:8000/health/"
              (env_of None jopi_ok_synergas_503) start)) = Ok false
  /\ fst (fst (check_health "Synergas" "http://synergas_app:8000/health/"
                 (env_of None jopi_ok_synergas_refused) start)) = Ok false
  /\ fst (fst (for_apps apps 0 (env_of None jopi_ok_synergas_503) start)) =
     fst (fst (for_apps apps 0 (env_of None jopi_ok_synergas_refused) start)).
Proof.
  destruct check_health_returns_bool_only as (Hret & _ & Htally).
  split; [exact (Hret "Synergas" "http://synergas_app:8000/health/"
                   (env_of None jopi_ok_synergas_503) start eq_refl)|].
  split; [exact (Hret "Synergas" "http://synergas_app:8000/health/"
                   (env_of None jopi_ok_synergas_refused) start eq_refl)|].
  apply Htally. simpl.
  repeat (constructor; [repeat split|]). constructor.
Defined.

(* ===================================================================== *)
(** ** One pass of the loop *)

Lemma check_health_logs_colon : forall app_name url env c lvl msg,
  In (EvLog lvl msg) (snd (check_health app_name url env c)) ->
  has_colon msg = true.
Proof.
  assert (Hcolon : forall a b, has_colon (a ++ String ":" b) = true).
  { induction a as [|x a IH]; intros b; simpl.
    - reflexivity.
    - rewrite IH. apply orb_true_r. }
  intros app_name url env c lvl msg. rewrite check_health_eq.
  outcome_cases env c url; simpl; intros Hin;
    repeat match goal with H : _ \/ _ |- _ => destruct H as [H | H] end;
    try contradiction; try discriminate Hin;
    injection Hin as _ <-; apply Hcolon.
Qed.

Lemma for_apps_logs_colon : forall l hc env c lvl msg,
  In (EvLog lvl msg) (snd (for_apps l hc env c)) -> has_colon msg = true.
Proof.
  induction l as [|[app_name url] rest IH]; intros hc env c lvl msg.
  - simpl. intros [].
  - rewrite for_apps_cons.
    pose proof (check_health_logs_colon app_name url env c lvl msg) as Hone.
    destruct (check_health app_name url env c) as [[[b | e] c'] evs1];
      simpl in Hone; [|exact Hone].
    specialize (IH (if b then S hc else hc) env (after_get c) lvl msg).
    destruct (for_apps rest _ env (after_get c)) as [[r c2] evs2].
    simpl in IH |- *. rewrite in_app_iff. intros [H | H]; auto.
Qed.

Lemma time_sleep_events : forall secs env c,
  snd (time_sleep secs env c) = [] \/ snd (time_sleep secs env c) = [EvSleep secs].
Proof.
  intros. unfold time_sleep.
  destruct ((secs <? - SLEEP_MAX) || (SLEEP_MAX <? secs))%bool; [now left|].
  destruct (secs <? 0); [now left|].
  destruct (INT64_MAX <? secs * 1000000000 + monotonic_ns env (n_sleep c));
    [now left|].
  destruct (sleep_interrupted env (n_sleep c)); now right.
Qed.

Lemma loop_body_events : forall l check_interval env c H c1 evs,
  for_apps l 0 env c = (Ok H, c1, evs) ->
  snd (loop_body l check_interval env c) =
    (evs ++ summary_record H (List.length l)
         :: snd (time_sleep check_interval env c1))%list.
Proof.
  intros l i env c H c1 evs Hrun.
  unfold loop_body, bind. rewrite Hrun.
  unfold log_summary, summary_record.
  destruct (Nat.eqb H (List.length l)); simpl;
    destruct (time_sleep i env c1) as [[r c2] evs2]; reflexivity.
Qed.

(** C2.  A pass over N targets that classifies H of them as healthy (H is
    the number of outcomes with status 200) writes, after the events of
    the probes and before the sleep, one summary record: the info record
    "All Django apps are healthy" when H = N, and otherwise the warning
    record "Some Django apps are unhealthy! (H/N healthy)" with H and N in
    decimal.  The info record is among the events of the pass if and only
    if H = N. *)
Theorem summary_iff_all_healthy :
  forall l check_interval env c H c1 evs,
    for_apps l 0 env c = (Ok H, c1, evs) ->
    let N := List.length l in
    let pass := snd (loop_body l check_interval env c) in
    H = count_healthy (outcomes env (n_get c) l)
    /\ pass = (evs ++ summary_record H N
                   :: snd (time_sleep check_interval env c1))%list
    /\ (In (EvLog INFO "All Django apps are healthy") pass <-> H = N)
    /\ (H <> N ->
        In (EvLog WARNING
              ("Some Django apps are unhealthy! (" ++ str_nat H ++ "/" ++ str_nat N
                 ++ " healthy)")) pass).
Proof.
  intros l i env c H c1 evs Hrun N pass.
  pose proof (for_apps_cases l 0%nat env c) as Hcases.
  cbv zeta in Hcases. rewrite Hrun in Hcases.
  destruct Hcases as (_ & _ & _ & HH & _).
  pose proof (loop_body_events l i env c H c1 evs Hrun) as Hpass.
  fold N pass in Hpass.
  split; [exact HH|]. split; [exact Hpass|].
  rewrite Hpass. unfold summary_record. split.
  - split.
    + rewrite in_app_iff. intros [Hin | [Heq | Hin]].
      * pose proof (for_apps_logs_colon l 0%nat env c INFO
                      "All Django apps are healthy") as Hcolon.
        rewrite Hrun in Hcolon. specialize (Hcolon Hin). discriminate Hcolon.
      * destruct (Nat.eqb_spec H N) as [E | _]; [exact E | discriminate Heq].
      * destruct (time_sleep_events i env c1) as [E | E]; rewrite E in Hin;
          simpl in Hin; [contradiction|].
        destruct Hin as [Hin | []]. discriminate Hin.
    + intros E. apply in_or_app. right. left.
      apply Nat.eqb_eq in E. rewrite E. reflexivity.
  - intros Hne. apply in_or_app. right. left.
    apply Nat.eqb_neq in Hne. rewrite Hne. reflexivity.
Qed.

Lemma summary_iff_all_healthy_witness :
  snd (loop_body apps 60 (env_of None jopi_ok_synergas_503) start) =
    [EvGet "http://jopi_app:8000/health/" 10;
     EvLog INFO "Jopi: HEALTHY";
     EvGet "http://synergas_app:8000/health/" 10;
     EvLog WARNING "Synergas: UNHEALTHY (HTTP 503)";
     EvLog WARNING "Some Django apps are unhealthy! (1/2 healthy)";
     EvSleep 60]
  /\ snd (loop_body apps 60 (env_of None all_ok) start) =
    [EvGet "http://jopi_app:8000/health/" 10;
     EvLog INFO "Jopi: HEALTHY";
     EvGet "http://synergas_app:8000/health/" 10;
     EvLog INFO "Synergas: HEALTHY";
     EvLog INFO "All Django apps are healthy";
     EvSleep 60].
Proof.
  split.
  - destruct (summary_iff_all_healthy apps 60 (env_of None jopi_ok_synergas_503)
                start 1%nat _ _ eq_refl) as (_ & Hpass & _).
    exact Hpass.
  - destruct (summary_iff_all_healthy apps 60 (env_of None all_ok)
                start 2%nat _ _ eq_refl) as (_ & Hpass & _).
    exact Hpass.
Defined.

Lemma check_health_congr : forall app_name url env1 c1 env2 c2,
  http_get env1 (n_get c1) url = http_get env2 (n_get c2) url ->
  fst (fst (check_health app_name url env1 c1)) =
    fst (fst (check_health app_name url env2 c2)) /\
  snd (check_health app_name url env1 c1) = snd (check_health app_name url env2 c2).
Proof.
  intros app_name url env1 c1 env2 c2 Hsame.
  rewrite !check_health_eq, Hsame.
  outcome_cases env2 c2 url; split; reflexivity.
Qed.

Lemma for_apps_congr : forall l hc env1 c1 env2 c2,
  outcomes env1 (n_get c1) l = outcomes env2 (n_get c2) l ->
  fst (fst (for_apps l hc env1 c1)) = fst (fst (for_apps l hc env2 c2)) /\
  snd (for_apps l hc env1 c1) = snd (for_apps l hc env2 c2).
Proof.
  induction l as [|[app_name url] rest IH]; intros hc env1 c1 env2 c2 Hsame.
  - split; reflexivity.
  - simpl in Hsame. injection Hsame as Hhead Hrest.
    rewrite !for_apps_cons.
    destruct (check_health_congr app_name url env1 c1 env2 c2 Hhead) as (Hr & He).
    destruct (check_health app_name url env1 c1) as [[r1 d1] evs1].
    destruct (check_health app_name url env2 c2) as [[r2 d2] evs2].
    simpl in Hr, He. subst r2 evs2.
    destruct r1 as [b | e]; [|split; reflexivity].
    destruct (IH (if b then S hc else hc) env1 (after_get c1) env2 (after_get c2) Hrest)
      as (IHr & IHe).
    destruct (for_apps rest _ env1 (after_get c1)) as [[r1 d1'] evs1'].
    destruct (for_apps rest _ env2 (after_get c2)) as [[r2 d2'] evs2'].
    simpl in IHr, IHe |- *. subst. split; reflexivity.
Qed.

(** C9.  Two passes over the same targets that meet the same outcomes,
    target by target, make the same tally and write the same log records,
    per target and summary, whatever came before them: the cursors, the
    rest of the environments and the intervals may differ. *)
Theorem passes_are_repeatable :
  forall l i1 i2 env1 c1 env2 c2,
    outcomes env1 (n_get c1) l = outcomes env2 (n_get c2) l ->
    fst (fst (for_apps l 0 env1 c1)) = fst (fst (for_apps l 0 env2 c2))
    /\ log_records (snd (loop_body l i1 env1 c1)) =
       log_records (snd (loop_body l i2 env2 c2)).
Proof.
  intros l i1 i2 env1 c1 env2 c2 Hsame.
  destruct (for_apps_congr l 0%nat env1 c1 env2 c2 Hsame) as (Hr & He).
  split; [exact Hr|].
  unfold loop_body, bind.
  destruct (for_apps l 0%nat env1 c1) as [[r1 d1] evs1].
  destruct (for_apps l 0%nat env2 c2) as [[r2 d2] evs2].
  simpl in Hr, He. subst r2 evs2.
  destruct r1 as [H | e]; [|reflexivity].
  assert (Hlog : forall ev i env d,
             log_records
               (snd (let '(r, c2, evs2) := time_sleep i env d in
                     (r, c2, (ev :: evs2)%list))) = log_records [ev]).
  { intros ev i env d. pose proof (time_sleep_events i env d) as Hs.
    destruct (time_sleep i env d) as [[q k] s]. simpl in Hs |- *.
    destruct Hs as [-> | ->]; destruct ev; reflexivity. }
  unfold log_summary.
  destruct (Nat.eqb H (List.length l)); simpl.
  - pose proof (Hlog (EvLog INFO "All Django apps are healthy") i1 env1 d1) as L1.
    pose proof (Hlog (EvLog INFO "All Django apps are healthy") i2 env2 d2) as L2.
    destruct (time_sleep i1 env1 d1) as [[q1 k1] s1].
    destruct (time_sleep i2 env2 d2) as [[q2 k2] s2].
    simpl in L1, L2 |- *. rewrite !log_records_app. simpl. congruence.
  - set (w := EvLog WARNING _).
    pose proof (Hlog w i1 env1 d1) as L1. pose proof (Hlog w i2 env2 d2) as L2.
    destruct (time_sleep i1 env1 d1) as [[q1 k1] s1].
    destruct (time_sleep i2 env2 d2) as [[q2 k2] s2].
    simpl in L1, L2 |- *. rewrite !log_records_app. simpl.
    unfold w in *. simpl in L1, L2. congruence.
Qed.

Lemma passes_are_repeatable_witness :
  log_records
    (snd (loop_body apps 60 (env_of None jopi_ok_synergas_503) start)) =
  log_records
    (snd (loop_body apps 60 (env_of None jopi_ok_synergas_503) (mkCursor 2 1))).
Proof.
  apply (passes_are_repeatable apps 60 60
           (env_of None jopi_ok_synergas_503) start
           (env_of None jopi_ok_synergas_503) (mkCursor 2 1) eq_refl).
Defined.

(* ===================================================================== *)
(** ** The sleep and the whole loop *)

Lemma time_sleep_cases : forall secs env c,
  (sleep_accepts env (n_sleep c) secs = true /\
   time_sleep secs env c =
     (if sleep_interrupted env (n_sleep c)
      then Raise (mkExc KeyboardInterrupt EmptyString) else Ok tt,
      after_sleep c, [EvSleep secs]))
  \/
  (sleep_accepts env (n_sleep c) secs = false /\
   exists e, time_sleep secs env c = (Raise e, c, []) /\
             isinstance_Exception e = true /\
             exc_type e = sleep_refusal secs).
Proof.
  intros secs env c. unfold time_sleep, sleep_accepts, sleep_refusal, after_sleep.
  assert (Hmax : SLEEP_MAX = 9223372036) by reflexivity.
  destruct (Z.ltb_spec secs (- SLEEP_MAX)); simpl.
  - right. split; [|eexists; repeat split].
    destruct (Z.leb_spec 0 secs); [lia | reflexivity].
  - destruct (Z.ltb_spec SLEEP_MAX secs); simpl.
    + right. split; [|eexists; repeat split].
      destruct (Z.leb_spec secs SLEEP_MAX); [lia|].
      rewrite andb_false_r. reflexivity.
    + destruct (Z.ltb_spec secs 0).
      * right. split; [|eexists; repeat split].
        destruct (Z.leb_spec 0 secs); [lia | reflexivity].
      * destruct (Z.leb_spec 0 secs); [|lia].
        destruct (Z.leb_spec secs SLEEP_MAX); [|lia]. simpl.
        destruct (Z.ltb_spec INT64_MAX
                    (secs * 1000000000 + monotonic_ns env (n_sleep c))).
        -- right. split; [|eexists; repeat split].
           destruct (Z.leb_spec (secs * 1000000000 + monotonic_ns env (n_sleep c))
                       INT64_MAX); [lia | reflexivity].
        -- left. split.
           { destruct (Z.leb_spec (secs * 1000000000 + monotonic_ns env (n_sleep c))
                         INT64_MAX); [reflexivity | lia]. }
           destruct (sleep_interrupted env (n_sleep c)); reflexivity.
Qed.

Lemma unhandled_outcome_is_signal : forall l env k,
  forallb handled (outcomes env k l) = false -> signal_seen env.
Proof.
  induction l as [|[app_name url] rest IH]; intros env k; simpl.
  - discriminate.
  - destruct (handled (http_get env k url)) eqn:Hh; simpl.
    + apply IH.
    + intros _. left. exists k, url. exact Hh.
Qed.

Lemma no_signal_not_seen : forall env, no_signal env -> ~ signal_seen env.
Proof.
  intros env (Hget & Hsleep) [(k & url & H) | (k & H)].
  - rewrite Hget in H. discriminate H.
  - rewrite Hsleep in H. discriminate H.
Qed.

(** One pass: what it writes and how it can end. *)
Lemma loop_body_cases : forall l z env c,
  let '(r, c1, evs) := loop_body l z env c in
  env_reads evs = [] /\
  (forall s, In s (sleeps evs) -> s = z) /\
  match r with
  | Ok _ =>
      sleep_accepts env (n_sleep c) z = true /\ sleeps evs = [z] /\
      urls_requested evs = map snd l /\
      c1 = mkCursor (n_get c + List.length l) (S (n_sleep c))
  | Raise e =>
      (sleep_accepts env (n_sleep c) z = false /\ isinstance_Exception e = true) \/
      (isinstance_Exception e = false /\ signal_seen env)
  end.
Proof.
  intros l z env c. unfold loop_body, bind.
  pose proof (for_apps_cases l 0%nat env c) as Hfor. cbv zeta in Hfor.
  destruct (for_apps l 0%nat env c) as [[[H | e] c1] evs1].
  - destruct Hfor as (Hs & He & _ & _ & Hc & Hurls).
    assert (Hk : n_sleep c1 = n_sleep c) by (rewrite Hc; reflexivity).
    assert (Hsum : exists ev, log_summary l H env c1 = (Ok tt, c1, [ev]) /\
                              sleeps [ev] = [] /\ env_reads [ev] = [] /\
                              urls_requested [ev] = []).
    { unfold log_summary. destruct (Nat.eqb H (List.length l));
        eexists; repeat split. }
    destruct Hsum as (ev & -> & Hsv & Hev & Huv).
    destruct (time_sleep_cases z env c1)
      as [(Hacc & ->) | (Hrej & e & -> & Hexc & _)]; rewrite Hk in *.
    + rewrite !sleeps_app, !env_reads_app, !urls_requested_app, Hs, He, Hurls.
      simpl in Hsv, Hev, Huv |- *. rewrite Hsv, Hev, Huv. simpl.
      split; [reflexivity|]. split; [intros s [<- | []]; reflexivity|].
      destruct (sleep_interrupted env (n_sleep c)) eqn:Hint.
      * right. split; [reflexivity|]. right. now exists (n_sleep c).
      * rewrite app_nil_r. subst c1. repeat split. exact Hacc.
    + rewrite !sleeps_app, !env_reads_app, Hs, He.
      simpl in Hsv, Hev |- *. rewrite Hsv, Hev. simpl.
      split; [reflexivity|]. split; [intros s []|].
      left. split; assumption.
  - destruct Hfor as (Hs & He & Hall & Hexc).
    rewrite Hs. split; [exact He|]. split; [intros s []|].
    right. split; [exact Hexc|].
    apply (unhandled_outcome_is_signal l env (n_get c)). exact Hall.
Qed.

(** The loop, cut after [fuel] passes. *)
Lemma while_True_cases : forall fuel l z env c,
  let '(r, c1, evs) := while_True fuel (loop_body l z) env c in
  env_reads evs = [] /\
  (forall s, In s (sleeps evs) -> s = z) /\
  match r with
  | StillLooping =>
      sleeps evs = repeat z fuel /\
      urls_requested evs = List.concat (repeat (map snd l) fuel) /\
      c1 = mkCursor (n_get c + fuel * List.length l) (n_sleep c + fuel)
  | Uncaught e =>
      ((exists k, sleep_accepts env k z = false) /\
       isinstance_Exception e = true) \/
      (isinstance_Exception e = false /\ signal_seen env)
  end.
Proof.
  induction fuel as [|fuel IH]; intros l z env c.
  - simpl. destruct c as [g s]. simpl. repeat split.
    + intros s0 [].
    + f_equal; lia.
  - simpl.
    pose proof (loop_body_cases l z env c) as Hbody.
    destruct (loop_body l z env c) as [[[[] | e] c1] evs1].
    + destruct Hbody as (He & Hz & _ & Hs & Hurls & ->).
      specialize (IH l z env (mkCursor (n_get c + List.length l) (S (n_sleep c)))).
      destruct (while_True fuel (loop_body l z) env _) as [[r c2] evs2].
      destruct IH as (IHe & IHz & IHr).
      rewrite sleeps_app, env_reads_app, He, IHe, Hs.
      split; [reflexivity|]. split.
      { intros s [<- | Hin]; [reflexivity | now apply IHz]. }
      destruct r as [|e].
      * destruct IHr as (-> & IHu & ->). split; [reflexivity|].
        rewrite urls_requested_app, Hurls, IHu. split; [reflexivity|].
        simpl. f_equal; lia.
      * exact IHr.
    + destruct Hbody as (He & Hz & Hr).
      split; [exact He|]. split; [exact Hz|].
      destruct Hr as [(Hrej & Hexc) | Hsig]; [left | right; exact Hsig].
      split; [now exists (n_sleep c) | exact Hexc].
Qed.

Lemma main_eq : forall fuel env,
  main fuel env =
  let header := [EvLog INFO "Starting Django health watcher...";
                 EvGetenv "HEALTH_CHECK_INTERVAL"] in
  match int_of_str (configured env) with
  | Some z =>
      let '(r, c, evs) := while_True fuel (loop_body apps z) env start in
      (r, c, (header ++ evs)%list)
  | None =>
      (Uncaught (mkExc ValueError (literal_error env (configured env))),
       start, header)
  end.
Proof.
  intros fuel env.
  unfold main, startup, bind, logger_info, emit, os_getenv, int_.
  fold (configured env).
  destruct (int_of_str (configured env)) as [z|]; simpl; [|reflexivity].
  destruct (while_True fuel (loop_body apps z) env start) as [[r c] evs].
  reflexivity.
Qed.

(** A run that an exception ended is not changed by a larger bound. *)
Lemma while_True_more_fuel : forall n m body env c e c1 evs,
  while_True n body env c = (Uncaught e, c1, evs) ->
  while_True (n + m) body env c = (Uncaught e, c1, evs).
Proof.
  induction n as [|n IH]; intros m body env c e c1 evs; simpl.
  - discriminate.
  - destruct (body env c) as [[[[] | e0] c0] evs0]; [|auto].
    destruct (while_True n body env c0) as [[r c2] evs2] eqn:Hrest.
    intros [= -> -> <-]. now rewrite (IH m _ _ _ _ _ _ Hrest).
Qed.

(** The two-target scenario of the specification, run for one pass. *)
Example main_jopi_ok_synergas_503 :
  main 1 (env_of None jopi_ok_synergas_503) =
    (StillLooping, mkCursor 2 1,
     [EvLog INFO "Starting Django health watcher...";
      EvGetenv "HEALTH_CHECK_INTERVAL";
      EvGet "http://jopi_app:8000/health/" 10;
      EvLog INFO "Jopi: HEALTHY";
      EvGet "http://synergas_app:8000/health/" 10;
      EvLog WARNING "Synergas: UNHEALTHY (HTTP 503)";
      EvLog WARNING "Some Django apps are unhealthy! (1/2 healthy)";
      EvSleep 60]).
Proof. reflexivity. Qed.

(** The same targets with the interval "-1": the pass is cut at the
    sleep, for any bound of at least one pass. *)
Example main_negative_interval : forall fuel,
  main (S fuel) negative_interval_env =
    (Uncaught (mkExc ValueError "sleep length must be non-negative"),
     mkCursor 2 0,
     [EvLog INFO "Starting Django health watcher...";
      EvGetenv "HEALTH_CHECK_INTERVAL";
      EvGet "http://jopi_app:8000/health/" 10;
      EvLog INFO "Jopi: HEALTHY";
      EvGet "http://synergas_app:8000/health/" 10;
      EvLog INFO "Synergas: HEALTHY";
      EvLog INFO "All Django apps are healthy"]).
Proof.
  intros fuel. unfold main.
  change (startup negative_interval_env start) with
    (@Ok Z (-1), start,
     [EvLog INFO "Starting Django health watcher...";
      EvGetenv "HEALTH_CHECK_INTERVAL"]).
  cbv iota beta.
  change (S fuel) with (1 + fuel)%nat.
  rewrite (while_True_more_fuel 1 fuel (loop_body apps (-1))
             negative_interval_env start
             (mkExc ValueError "sleep length must be non-negative")
             (mkCursor 2 0)
             [EvGet "http://jopi_app:8000/health/" 10;
              EvLog INFO "Jopi: HEALTHY";
              EvGet "http://synergas_app:8000/health/" 10;
              EvLog INFO "Synergas: HEALTHY";
              EvLog INFO "All Django apps are healthy"] eq_refl).
  reflexivity.
Qed.

(** [int] on plain literals, on signs, whitespace and underscores, and
    on what it refuses. *)
Example int_of_str_ascii :
  int_of_str "60" = Some 60 /\ int_of_str " -1 " = Some (-1)
  /\ int_of_str "+007" = Some 7 /\ int_of_str "1_000" = Some 1000
  /\ int_of_str EmptyString = None /\ int_of_str "5.0" = None
  /\ int_of_str "1__0" = None /\ int_of_str "- 1" = None
  /\ int_of_str "0x10" = None.
Proof. repeat split. Qed.

(** [int] on ARABIC-INDIC DIGIT THREE, on a digit between no-break
    spaces, on FULLWIDTH HYPHEN-MINUS, and on a byte that is not UTF-8. *)
Example int_of_str_unicode :
  int_of_str (of_bytes [217; 163]%nat) = Some 3
  /\ int_of_str (of_bytes [194; 160; 53; 194; 160]%nat) = Some 5
  /\ int_of_str (of_bytes [239; 188; 141; 53]%nat) = None
  /\ int_of_str (of_bytes [53; 255]%nat) = None.
Proof. repeat split. Qed.

(** The limit of 4300 digits counts leading zeros and leaves the sign
    out. *)
Example int_of_str_digit_limit :
  int_of_str (replicate 4299 "0" ++ "5") = Some 5
  /\ int_of_str (replicate 4300 "0" ++ "5") = None
  /\ int_of_str ("-" ++ replicate 4299 "0" ++ "5") = Some (-5).
Proof. vm_compute. repeat split. Qed.

(** The largest length whose nanoseconds fit is refused by the clock of
    a process that has been up for an hour; so is any length less than an
    hour below it. *)
Example sleep_near_the_limit :
  sleep_accepts (env_of None all_ok) 0 9223372036 = false
  /\ sleep_accepts (env_of None all_ok) 0 (9223372036 - 3599) = false
  /\ sleep_accepts (env_of None all_ok) 0 (9223372036 - 3600) = true
  /\ fst (fst (time_sleep 9223372036 (env_of None all_ok) start)) =
       Raise (mkExc OSError "[Errno 22] Invalid argument").
Proof. repeat split. Qed.

(** C7.  In every run of [main], the environment is read once, for
    [HEALTH_CHECK_INTERVAL], right after the startup record and before
    any request or sleep.  Every sleep of the run lasts the integer that
    the value read parses to, which is 60 when the variable is unset; a
    run that is still in the loop after [fuel] passes has slept that same
    length [fuel] times. *)
Theorem interval_read_once :
  forall fuel env,
    exists rest,
      snd (main fuel env) =
        EvLog INFO "Starting Django health watcher..."
          :: EvGetenv "HEALTH_CHECK_INTERVAL" :: rest
      /\ env_reads rest = []
      /\ (forall secs, In secs (sleeps rest) ->
                       int_of_str (configured env) = Some secs)
      /\ (environ env "HEALTH_CHECK_INTERVAL" = None ->
          forall secs, In secs (sleeps rest) -> secs = 60)
      /\ (fst (fst (main fuel env)) = StillLooping ->
          exists z, int_of_str (configured env) = Some z /\
                    sleeps rest = repeat z fuel).
Proof.
  intros fuel env. rewrite main_eq. cbv zeta.
  assert (Hunset : environ env "HEALTH_CHECK_INTERVAL" = None ->
                   int_of_str (configured env) = Some 60).
  { intros Hnone. unfold configured. rewrite Hnone. reflexivity. }
  destruct (int_of_str (configured env)) as [z|] eqn:Hparse.
  - pose proof (while_True_cases fuel apps z env start) as Hloop.
    destruct (while_True fuel (loop_body apps z) env start) as [[r c] evs].
    destruct Hloop as (He & Hz & Hr).
    exists evs. simpl.
    split; [reflexivity|]. split; [exact He|].
    split; [intros secs Hin; f_equal; symmetry; now apply Hz|].
    split.
    + intros Hnone secs Hin. specialize (Hunset Hnone).
      injection Hunset as <-. now apply Hz.
    + intros ->. exists z. split; [reflexivity | apply Hr].
  - exists []. simpl.
    split; [reflexivity|]. split; [reflexivity|].
    split; [intros secs []|].
    split; [intros _ secs [] | discriminate].
Qed.

Lemma interval_read_once_witness :
  sleeps (snd (main 3 (env_of None jopi_ok_synergas_503))) = [60; 60; 60]
  /\ sleeps (snd (main 2 (env_of (Some "5") all_ok))) = [5; 5]
  /\ env_reads (snd (main 3 (env_of None jopi_ok_synergas_503))) =
       ["HEALTH_CHECK_INTERVAL"].
Proof.
  destruct (interval_read_once 3 (env_of None jopi_ok_synergas_503))
    as (rest1 & E1 & R1 & _ & _ & S1).
  destruct (interval_read_once 2 (env_of (Some "5") all_ok))
    as (rest2 & E2 & _ & _ & _ & S2).
  destruct (S1 eq_refl) as (z1 & P1 & L1).
  destruct (S2 eq_refl) as (z2 & P2 & L2).
  injection P1 as <-. injection P2 as <-.
  rewrite E1, E2. simpl. rewrite L1, L2, R1. repeat split.
Defined.

(** A pass whose probes ran to their end: the summary, then the sleep. *)
Lemma loop_body_eq : forall l z env c H c1 evs,
  for_apps l 0 env c = (Ok H, c1, evs) ->
  loop_body l z env c =
    (let '(r, c2, evs2) := time_sleep z env c1 in
     (r, c2, (evs ++ summary_record H (List.length l) :: evs2)%list)).
Proof.
  intros l z env c H c1 evs Hrun.
  unfold loop_body, bind. rewrite Hrun.
  unfold log_summary, summary_record.
  destruct (Nat.eqb H (List.length l)); simpl;
    destruct (time_sleep z env c1) as [[r c2] evs2]; reflexivity.
Qed.

(** A pass that runs to its end, taken apart. *)
Lemma loop_body_ok : forall l z env c u c' evs,
  loop_body l z env c = (Ok u, c', evs) ->
  exists H c1 probes,
    for_apps l 0 env c = (Ok H, c1, probes) /\
    sleep_accepts env (n_sleep c1) z = true /\
    sleep_interrupted env (n_sleep c1) = false /\
    c' = after_sleep c1 /\
    evs = (probes ++ [summary_record H (List.length l); EvSleep z])%list.
Proof.
  intros l z env c u c' evs Hbody.
  destruct (for_apps l 0%nat env c) as [[[H | e] c1] probes] eqn:Hrun.
  - rewrite (loop_body_eq l z env c H c1 probes Hrun) in Hbody.
    destruct (time_sleep_cases z env c1) as [(Hacc & Hs) | (_ & e & Hs & _)];
      rewrite Hs in Hbody; [|discriminate Hbody].
    destruct (sleep_interrupted env (n_sleep c1)) eqn:Hint; [discriminate Hbody|].
    injection Hbody as _ <- <-. exists H, c1, probes. repeat split; assumption.
  - unfold loop_body, bind in Hbody. rewrite Hrun in Hbody. discriminate Hbody.
Qed.

(** A pass that an exception cuts short: a signal during a request, a
    sleep that is refused, or a signal during the sleep. *)
Lemma loop_body_raise : forall l z env c e c' evs,
  loop_body l z env c = (Raise e, c', evs) ->
  (for_apps l 0 env c = (Raise e, c', evs) /\
   isinstance_Exception e = false /\ signal_seen env)
  \/
  (exists H probes,
      for_apps l 0 env c = (Ok H, c', probes) /\
      evs = (probes ++ [summary_record H (List.length l)])%list /\
      sleep_accepts env (n_sleep c') z = false /\
      exc_type e = sleep_refusal z /\
      isinstance_Exception e = true)
  \/
  (exists H c1 probes,
      for_apps l 0 env c = (Ok H, c1, probes) /\
      evs = (probes ++ [summary_record H (List.length l); EvSleep z])%list /\
      sleep_interrupted env (n_sleep c1) = true /\
      isinstance_Exception e = false /\ signal_seen env).
Proof.
  intros l z env c e c' evs Hbody.
  pose proof (for_apps_cases l 0%nat env c) as Hcases. cbv zeta in Hcases.
  destruct (for_apps l 0%nat env c) as [[[H | e0] c1] probes] eqn:Hrun.
  - right.
    rewrite (loop_body_eq l z env c H c1 probes Hrun) in Hbody.
    destruct (time_sleep_cases z env c1)
      as [(Hacc & Hs) | (Hrej & e1 & Hs & Hexc & Htype)]; rewrite Hs in Hbody.
    + right.
      destruct (sleep_interrupted env (n_sleep c1)) eqn:Hint; [|discriminate Hbody].
      injection Hbody as <- _ <-. exists H, c1, probes.
      split; [reflexivity|]. split; [reflexivity|]. split; [exact Hint|].
      split; [reflexivity|]. right. now exists (n_sleep c1).
    + left. injection Hbody as <- <- <-. exists H, probes.
      repeat split; assumption.
  - left. unfold loop_body, bind in Hbody. rewrite Hrun in Hbody.
    injection Hbody as <- <- <-.
    destruct Hcases as (_ & _ & Hall & Hexc).
    split; [reflexivity|]. split; [exact Hexc|].
    exact (unhandled_outcome_is_signal l env (n_get c) Hall).
Qed.

(** A bounded run of the loop, taken apart: the passes that ran to their
    end and, when an exception ended the run, the pass that it cut. *)
Lemma while_True_trace : forall fuel l z env c r c' evs,
  while_True fuel (loop_body l z) env c = (r, c', evs) ->
  match r with
  | StillLooping => passes l z env fuel c evs c'
  | Uncaught e =>
      exists n c0 full last,
        (n < fuel)%nat /\
        passes l z env n c full c0 /\
        evs = (full ++ last)%list /\
        loop_body l z env c0 = (Raise e, c', last)
  end.
Proof.
  induction fuel as [|fuel IH]; intros l z env c r c' evs; simpl.
  - intros [= <- <- <-]. constructor.
  - destruct (loop_body l z env c) as [[[u | e] c1] evs1] eqn:Hbody.
    + destruct (loop_body_ok _ _ _ _ _ _ _ Hbody)
        as (H & d & probes & Hrun & Hacc & Hint & -> & ->).
      destruct (while_True fuel (loop_body l z) env (after_sleep d))
        as [[r2 c2] evs2] eqn:Hrest.
      intros [= <- <- <-].
      specialize (IH _ _ _ _ _ _ _ Hrest).
      rewrite <- app_assoc. simpl.
      destruct r2 as [|e].
      * econstructor; eassumption.
      * destruct IH as (n & c0 & full & last & Hn & Hfull & -> & Hlast).
        exists (S n), c0,
          (probes ++ summary_record H (List.length l) :: EvSleep z :: full)%list,
          last.
        split; [lia|]. split; [econstructor; eassumption|].
        split; [|exact Hlast].
        rewrite <- app_assoc. reflexivity.
    + intros [= <- <- <-]. exists 0%nat, c, [], evs1.
      split; [lia|]. split; [constructor|]. split; [reflexivity | exact Hbody].
Qed.

Lemma passes_need_acceptance : forall l z env n c evs c',
  passes l z env n c evs c' ->
  never_accepted z = true -> n = 0%nat /\ evs = [].
Proof.
  intros l z env n c evs c' Hp Hnever.
  destruct Hp as [|n c H c1 probes rest c' _ Hacc _ _]; [split; reflexivity|].
  exfalso. unfold never_accepted in Hnever. unfold sleep_accepts in Hacc.
  apply andb_true_iff in Hacc. destruct Hacc as (Hacc & _).
  apply andb_true_iff in Hacc. destruct Hacc as (Hlo & Hhi).
  apply Z.leb_le in Hlo, Hhi.
  apply orb_true_iff in Hnever.
  destruct Hnever as [Hn | Hn]; apply Z.ltb_lt in Hn; lia.
Qed.

Lemma for_apps_cursor : forall l hc env c H c1 evs,
  for_apps l hc env c = (Ok H, c1, evs) ->
  c1 = mkCursor (n_get c + List.length l) (n_sleep c).
Proof.
  intros l hc env c H c1 evs Hrun.
  pose proof (for_apps_cases l hc env c) as Hcases. cbv zeta in Hcases.
  rewrite Hrun in Hcases. apply Hcases.
Qed.

Lemma passes_cursor : forall l z env n c evs c',
  passes l z env n c evs c' ->
  c' = mkCursor (n_get c + n * List.length l) (n_sleep c + n).
Proof.
  induction 1 as [c | n c H c1 probes rest c' Hrun _ _ _ IH].
  - destruct c as [g k]. simpl. f_equal; lia.
  - rewrite IH, (for_apps_cursor _ _ _ _ _ _ _ Hrun). simpl. f_equal; lia.
Qed.

(** C8 as stated, refuted: a value that does parse as an integer, "-1",
    leaves the program with an unhandled [ValueError] too, raised by the
    sleep at the end of the first pass, with no signal involved. *)
Lemma parse_failure_is_not_the_only_unhandled_path :
  ~ (forall env fuel e,
        no_signal env ->
        fst (fst (main fuel env)) = Uncaught e ->
        int_of_str (configured env) = None).
Proof.
  intros H.
  specialize (H negative_interval_env 1%nat
                (mkExc ValueError "sleep length must be non-negative")).
  assert (Hquiet : no_signal negative_interval_env).
  { split; intros; reflexivity. }
  specialize (H Hquiet eq_refl). discriminate H.
Qed.

(** C8, amended.  When the value of [HEALTH_CHECK_INTERVAL] does not
    parse as an integer, [main] raises [ValueError] during startup: the
    run has written the startup record and read the environment, has made
    no request, and has not entered the loop.  Signals aside, the only
    other unhandled failure is [time.sleep] refusing the interval that
    parsed.  It is raised at the end of a pass, after the probes and the
    summary record of that pass and after the passes before it, which ran
    to their end; for an interval that is negative or too large for any
    clock, that pass is the first. *)
Theorem unhandled_failures :
  (forall env,
      int_of_str (configured env) = None ->
      forall fuel, exists e,
        main fuel env =
          (Uncaught e, start,
           [EvLog INFO "Starting Django health watcher...";
            EvGetenv "HEALTH_CHECK_INTERVAL"])
        /\ exc_type e = ValueError)
  /\ (forall env fuel e c evs,
         no_signal env ->
         main fuel env = (Uncaught e, c, evs) ->
         int_of_str (configured env) = None
         \/ exists z n c0 full H probes,
              int_of_str (configured env) = Some z /\
              (n < fuel)%nat /\
              passes apps z env n start full c0 /\
              for_apps apps 0 env c0 = (Ok H, c, probes) /\
              evs = (startup_events ++ full ++ probes
                       ++ [summary_record H (List.length apps)])%list /\
              sleep_accepts env (n_sleep c) z = false /\
              exc_type e = sleep_refusal z /\
              (never_accepted z = true -> n = 0%nat /\ full = [])).
Proof.
  split.
  - intros env Hparse fuel. rewrite main_eq, Hparse.
    eexists. split; reflexivity.
  - intros env fuel e c evs Hquiet. rewrite main_eq. cbv zeta.
    destruct (int_of_str (configured env)) as [z|]; [|now left].
    destruct (while_True fuel (loop_body apps z) env start) as [[r c2] evs2] eqn:Hloop.
    intros [= -> -> <-]. right.
    destruct (while_True_trace _ _ _ _ _ _ _ _ Hloop)
      as (n & c0 & full & last & Hn & Hfull & -> & Hlast).
    destruct (loop_body_raise _ _ _ _ _ _ _ Hlast)
      as [(_ & _ & Hsig) | [(H & probes & Hrun & -> & Hrej & Htype & _)
                           | (H & c1 & probes & _ & _ & _ & _ & Hsig)]];
      try (exfalso; exact (no_signal_not_seen env Hquiet Hsig)).
    exists z, n, c0, full, H, probes.
    repeat split; try assumption.
    + apply (passes_need_acceptance _ _ _ _ _ _ _ Hfull). assumption.
    + apply (passes_need_acceptance _ _ _ _ _ _ _ Hfull). assumption.
Qed.

Lemma unhandled_failures_witness :
  (exists e,
      main 5 (env_of (Some "sixty") all_ok) =
        (Uncaught e, start,
         [EvLog INFO "Starting Django health watcher...";
          EvGetenv "HEALTH_CHECK_INTERVAL"])
      /\ exc_type e = ValueError)
  /\ (int_of_str (configured negative_interval_env) = None
      \/ exists z n c0 full H probes,
           int_of_str (configured negative_interval_env) = Some z /\
           (n < 3)%nat /\
           passes apps z negative_interval_env n start full c0 /\
           for_apps apps 0 negative_interval_env c0 = (Ok H, mkCursor 2 0, probes) /\
           [EvLog INFO "Starting Django health watcher...";
            EvGetenv "HEALTH_CHECK_INTERVAL";
            EvGet "http://jopi_app:8000/health/" 10;
            EvLog INFO "Jopi: HEALTHY";
            EvGet "http://synergas_app:8000/health/" 10;
            EvLog INFO "Synergas: HEALTHY";
            EvLog INFO "All Django apps are healthy"] =
             (startup_events ++ full ++ probes
                ++ [summary_record H (List.length apps)])%list /\
           sleep_accepts negative_interval_env 0 z = false /\
           ValueError = sleep_refusal z /\
           (never_accepted z = true -> n = 0%nat /\ full = [])).
Proof.
  destruct unhandled_failures as (Hstartup & Hother).
  split.
  - exact (Hstartup (env_of (Some "sixty") all_ok) eq_refl 5%nat).
  - apply (Hother negative_interval_env 3%nat
             (mkExc ValueError "sleep length must be non-negative")
             (mkCursor 2 0)).
    + split; intros; reflexivity.
    + reflexivity.
Defined.

(** C5 as stated, refuted: with the interval "-1" the loop is entered,
    both targets are probed and found healthy, and the program then ends
    from within, with no signal: the first pass is not completed. *)
Lemma negative_interval_ends_the_loop :
  ~ (forall env fuel,
        no_signal env ->
        (exists z, int_of_str (configured env) = Some z) ->
        fst (fst (main fuel env)) = StillLooping).
Proof.
  intros H.
  specialize (H negative_interval_env 1%nat).
  assert (Hquiet : no_signal negative_interval_env).
  { split; intros; reflexivity. }
  specialize (H Hquiet (ex_intro _ (-1) eq_refl)). discriminate H.
Qed.

(** C5, amended.  When the interval read at startup parses to a length
    that [time.sleep] accepts at each pass (not negative, and with a
    deadline on the monotonic clock that fits 64 bits of nanoseconds),
    the loop does not end from within the program.  Whatever the targets
    answer, status codes or caught faults, every bound [fuel] up to which
    the sleep is accepted is reached with the program still in the loop,
    after [fuel] passes that each ran to their end: the probes of every
    target in order, then the summary record, then the sleep, then the
    next pass.  A run that does end within such a bound, ends by an
    exception that is not an [Exception], delivered by a signal. *)
Theorem main_loop_runs_forever :
  forall env z fuel,
    int_of_str (configured env) = Some z ->
    (forall k, (k < fuel)%nat -> sleep_accepts env k z = true) ->
    (no_signal env ->
     exists evs,
       main fuel env =
         (StillLooping, mkCursor (fuel * List.length apps) fuel,
          (startup_events ++ evs)%list)
       /\ passes apps z env fuel start evs
            (mkCursor (fuel * List.length apps) fuel)
       /\ urls_requested evs = List.concat (repeat (map snd apps) fuel)
       /\ sleeps evs = repeat z fuel)
    /\ (forall e,
           fst (fst (main fuel env)) = Uncaught e ->
           isinstance_Exception e = false /\ signal_seen env).
Proof.
  intros env z fuel Hparse Hacc.
  assert (Hends : forall e c evs,
             while_True fuel (loop_body apps z) env start = (Uncaught e, c, evs) ->
             isinstance_Exception e = false /\ signal_seen env).
  { intros e c evs Hrun.
    destruct (while_True_trace _ _ _ _ _ _ _ _ Hrun)
      as (n & c0 & full & last & Hn & Hfull & _ & Hlast).
    apply passes_cursor in Hfull.
    destruct (loop_body_raise _ _ _ _ _ _ _ Hlast)
      as [(_ & Hexc & Hsig) | [(H & probes & Hprobes & _ & Hrej & _)
                              | (H & c1 & probes & _ & _ & _ & Hexc & Hsig)]];
      [split; assumption | | split; assumption].
    exfalso. apply for_apps_cursor in Hprobes.
    rewrite Hprobes, Hfull in Hrej. simpl in Hrej.
    rewrite (Hacc n Hn) in Hrej. discriminate Hrej. }
  split.
  - intros Hquiet. rewrite main_eq, Hparse. cbv zeta.
    pose proof (while_True_cases fuel apps z env start) as Hloop.
    destruct (while_True fuel (loop_body apps z) env start) as [[r c] evs] eqn:Hrun.
    destruct Hloop as (_ & _ & Hr).
    destruct r as [|e].
    + destruct Hr as (Hs & Hu & ->). exists evs.
      split; [reflexivity|].
      split; [exact (while_True_trace _ _ _ _ _ _ _ _ Hrun)|].
      split; [exact Hu | exact Hs].
    + exfalso. destruct (Hends e c evs eq_refl) as (_ & Hsig).
      exact (no_signal_not_seen env Hquiet Hsig).
  - intros e. rewrite main_eq, Hparse. cbv zeta.
    destruct (while_True fuel (loop_body apps z) env start) as [[r c] evs] eqn:Hrun.
    simpl. intros ->. exact (Hends e c evs eq_refl).
Qed.

Lemma main_loop_runs_forever_witness :
  (exists evs,
      main 4 (env_of None jopi_times_out) =
        (StillLooping, mkCursor 8 4, (startup_events ++ evs)%list)
      /\ passes apps 60 (env_of None jopi_times_out) 4 start evs (mkCursor 8 4)
      /\ urls_requested evs = List.concat (repeat (map snd apps) 4)
      /\ sleeps evs = [60; 60; 60; 60])
  /\ isinstance_Exception (mkExc KeyboardInterrupt EmptyString) = false.
Proof.
  destruct (main_loop_runs_forever (env_of None jopi_times_out) 60 4 eq_refl
              (fun _ _ => eq_refl)) as (Hruns & _).
  destruct (main_loop_runs_forever interrupted_env 60 1 eq_refl
              (fun _ _ => eq_refl)) as (_ & Hends).
  split.
  - apply Hruns. split; intros; unfold env_of, jopi_times_out; simpl;
      [destruct (String.eqb _ _)|]; reflexivity.
  - apply (Hends (mkExc KeyboardInterrupt EmptyString) eq_refl).
Defined.

(* ===================================================================== *)
(** ** Further properties of the script *)

(** *** Properties of every event of a run *)

Lemma bind_Forall : forall {A B} (P : event -> Prop) (m : M A) (k : A -> M B) env c,
  Forall P (snd (m env c)) ->
  (forall a c', Forall P (snd (k a env c'))) ->
  Forall P (snd (bind m k env c)).
Proof.
  intros A B P m k env c Hm Hk. unfold bind.
  destruct (m env c) as [[[a | e] c1] evs1]; simpl in Hm; [|exact Hm].
  specialize (Hk a c1). destruct (k a env c1) as [[r c2] evs2].
  simpl in Hk |- *. apply Forall_app. split; assumption.
Qed.

Lemma for_apps_Forall : forall (P : event -> Prop) env l,
  (forall app_name url c, In (app_name, url) l ->
                          Forall P (snd (check_health app_name url env c))) ->
  forall hc c, Forall P (snd (for_apps l hc env c)).
Proof.
  intros P env. induction l as [|[app_name url] rest IH]; intros Hcall hc c.
  - constructor.
  - simpl for_apps. apply bind_Forall.
    + apply Hcall. now left.
    + intros b c'. apply IH. intros n u d Hin. apply Hcall. now right.
Qed.

Lemma while_True_Forall : forall (P : event -> Prop) body env,
  (forall c, Forall P (snd (body env c))) ->
  forall fuel c, Forall P (snd (while_True fuel body env c)).
Proof.
  intros P body env Hbody. induction fuel as [|fuel IH]; intros c; simpl.
  - constructor.
  - specialize (Hbody c).
    destruct (body env c) as [[[[] | e] c1] evs1]; simpl in Hbody; [|exact Hbody].
    specialize (IH c1).
    destruct (while_True fuel body env c1) as [[r c2] evs2].
    simpl in IH |- *. apply Forall_app. split; assumption.
Qed.

Lemma main_Forall : forall (P : event -> Prop) env,
  Forall P startup_events ->
  (forall z c, Forall P (snd (loop_body apps z env c))) ->
  forall fuel, Forall P (snd (main fuel env)).
Proof.
  intros P env Hstart Hbody fuel. rewrite main_eq. cbv zeta.
  fold startup_events.
  destruct (int_of_str (configured env)) as [z|]; [|exact Hstart].
  pose proof (while_True_Forall P (loop_body apps z) env (Hbody z) fuel start) as Hloop.
  destruct (while_True fuel (loop_body apps z) env start) as [[r c] evs].
  simpl in Hloop.
  change (Forall P (startup_events ++ evs)).
  apply Forall_app. split; assumption.
Qed.

Lemma time_sleep_Forall : forall (P : event -> Prop) secs env c,
  P (EvSleep secs) -> Forall P (snd (time_sleep secs env c)).
Proof.
  intros P secs env c Hp.
  destruct (time_sleep_events secs env c) as [-> | ->]; repeat constructor.
  exact Hp.
Qed.

(** X1.  In every run of [main], whatever the environment does and
    however the run ends, every GET goes to one of the two URLs of [apps]
    and is made with a timeout of 10 seconds. *)
Theorem main_requests_only_configured :
  forall fuel env, Forall (request_ok apps) (snd (main fuel env)).
Proof.
  intros fuel env. apply main_Forall.
  - repeat constructor.
  - intros z c. unfold loop_body. apply bind_Forall.
    + apply for_apps_Forall. intros app_name url d Hin.
      assert (Hurl : In url (map snd apps)).
      { change url with (snd (app_name, url)). now apply in_map. }
      rewrite check_health_eq.
      outcome_cases env d url;
        repeat (apply Forall_cons || apply Forall_nil); simpl; auto.
    + intros h c'. apply bind_Forall.
      * unfold log_summary. destruct (Nat.eqb h (List.length apps));
          repeat constructor.
      * intros _ c''. apply time_sleep_Forall. exact I.
Qed.

(** *** A pass that is cut short *)

(** The loop over [l1 ++ l2] is the loop over [l1] followed, if it was
    not left by an exception, by the loop over [l2] from the tally and the
    cursor reached. *)
Lemma for_apps_app : forall l1 l2 hc env c,
  for_apps (l1 ++ l2) hc env c =
  match for_apps l1 hc env c with
  | (Ok h, c1, evs1) =>
      let '(r, c2, evs2) := for_apps l2 h env c1 in (r, c2, (evs1 ++ evs2)%list)
  | (Raise e, c1, evs1) => (Raise e, c1, evs1)
  end.
Proof.
  induction l1 as [|[app_name url] rest IH]; intros l2 hc env c.
  - simpl. destruct (for_apps l2 hc env c) as [[r c2] evs2]. reflexivity.
  - rewrite <- app_comm_cons, !for_apps_cons.
    destruct (check_health app_name url env c) as [[[b | e] c'] evs0];
      [|reflexivity].
    rewrite IH.
    destruct (for_apps rest (if b then S hc else hc) env (after_get c))
      as [[[h | e] c1] evs1]; [|reflexivity].
    destruct (for_apps l2 h env c1) as [[r c2] evs2].
    rewrite app_assoc. reflexivity.
Qed.

(** X2.  [except Exception] does not catch an exception that is not an
    [Exception] ([KeyboardInterrupt], [SystemExit]).  When the request to
    a target raises one, after the targets before it were probed,
    [check_health] lets it through without writing a log record; the pass
    stops there: the targets after it are not requested, no summary is
    written, there is no sleep, and the loop is left with that
    exception. *)
Theorem uncaught_signal_stops_pass :
  forall before app_name url rest z env c H c1 evs e,
    for_apps before 0 env c = (Ok H, c1, evs) ->
    http_get env (n_get c1) url = Fails e ->
    isinstance_Exception e = false ->
    let l := (before ++ (app_name, url) :: rest)%list in
    check_health app_name url env c1 = (Raise e, after_get c1, [EvGet url 10])
    /\ loop_body l z env c = (Raise e, after_get c1, (evs ++ [EvGet url 10])%list)
    /\ forall fuel,
         while_True (S fuel) (loop_body l z) env c =
           (Uncaught e, after_get c1, (evs ++ [EvGet url 10])%list).
Proof.
  intros before app_name url rest z env c H c1 evs e Hrun Hget Hexc l.
  assert (Hcall : check_health app_name url env c1 =
                  (Raise e, after_get c1, [EvGet url 10])).
  { rewrite check_health_eq, Hget, Hexc. reflexivity. }
  assert (Hbody : loop_body l z env c =
                  (Raise e, after_get c1, (evs ++ [EvGet url 10])%list)).
  { unfold loop_body, bind, l.
    rewrite for_apps_app, Hrun, for_apps_cons, Hcall. reflexivity. }
  split; [exact Hcall|]. split; [exact Hbody|].
  intros fuel. simpl. rewrite Hbody. reflexivity.
Qed.

Lemma uncaught_signal_stops_pass_witness :
  loop_body apps 60 interrupted_at_synergas start =
    (Raise (mkExc KeyboardInterrupt EmptyString), mkCursor 2 0,
     [EvGet "http://jopi_app:8000/health/" 10;
      EvLog INFO "Jopi: HEALTHY";
      EvGet "http://synergas_app:8000/health/" 10]).
Proof.
  destruct (uncaught_signal_stops_pass
              [("Jopi", "http://jopi_app:8000/health/")]
              "Synergas" "http://synergas_app:8000/health/" [] 60
              interrupted_at_synergas start 1%nat (mkCursor 1 0)
              [EvGet "http://jopi_app:8000/health/" 10; EvLog INFO "Jopi: HEALTHY"]
              (mkExc KeyboardInterrupt EmptyString)
              eq_refl eq_refl eq_refl) as (_ & Hbody & _).
  exact Hbody.
Defined.

(** X3.  An interval that parses but that [time.sleep] refuses when it
    is first asked for is found out only at the end of the first pass.
    When the probes of that pass run to their end, the program has
    requested every target and written the summary, and is then left,
    without having slept, with the exception of the sleep:
    [OverflowError] for a length whose nanoseconds do not fit 64 bits,
    [ValueError] for a negative length that fits, [OSError] for a length
    that fits but carries the monotonic clock past 64 bits.  A larger
    bound on the passes changes nothing. *)
Theorem refused_interval_ends_first_pass :
  forall env z H c1 probes fuel,
    int_of_str (configured env) = Some z ->
    for_apps apps 0 env start = (Ok H, c1, probes) ->
    sleep_accepts env 0 z = false ->
    exists e,
      main (S fuel) env =
        (Uncaught e, c1,
         (startup_events ++ probes ++ [summary_record H (List.length apps)])%list)
      /\ exc_type e = sleep_refusal z
      /\ (sleep_refusal z = OverflowError <-> z < - SLEEP_MAX \/ SLEEP_MAX < z)
      /\ (sleep_refusal z = ValueError <-> - SLEEP_MAX <= z < 0)
      /\ (sleep_refusal z = OSError <->
          0 <= z <= SLEEP_MAX /\
          INT64_MAX < z * 1000000000 + monotonic_ns env 0)
      /\ urls_requested probes = map snd apps.
Proof.
  intros env z H c1 probes fuel Hparse Hrun Hrej.
  pose proof (for_apps_cases apps 0%nat env start) as Hcases.
  cbv zeta in Hcases. rewrite Hrun in Hcases.
  destruct Hcases as (_ & _ & _ & _ & Hc & Hurls).
  assert (Hk : n_sleep c1 = 0%nat) by (rewrite Hc; reflexivity).
  destruct (time_sleep_cases z env c1)
    as [(Hacc & _) | (_ & e & Hsleep & _ & Htype)];
    [rewrite Hk in Hacc; congruence|].
  exists e. split; [|split; [exact Htype|]].
  - rewrite main_eq, Hparse. cbv zeta. simpl while_True.
    rewrite (loop_body_eq apps z env start H c1 probes Hrun), Hsleep.
    reflexivity.
  - clear Htype Hsleep. unfold sleep_refusal. unfold sleep_accepts in Hrej.
    assert (Hmax : SLEEP_MAX = 9223372036) by reflexivity.
    assert (Hclock : 0 <= z <= SLEEP_MAX ->
                     INT64_MAX < z * 1000000000 + monotonic_ns env 0).
    { intros (Hlo & Hhi). apply Z.leb_le in Hlo, Hhi. rewrite Hlo, Hhi in Hrej.
      simpl in Hrej. now apply Z.leb_gt. }
    destruct (Z.ltb_spec z (- SLEEP_MAX)); simpl;
      [|destruct (Z.ltb_spec SLEEP_MAX z); simpl;
        [|destruct (Z.ltb_spec z 0)]];
      (split; [|split; [|split; [|exact Hurls]]]);
      (split; intros Hq;
       [ try discriminate Hq; try (split; [lia | apply Hclock; lia]); try lia
       | try reflexivity; exfalso; lia ]).
Qed.

Lemma refused_interval_ends_first_pass_witness :
  (exists e,
      main 3 (env_of (Some "10000000000") jopi_ok_synergas_503) =
        (Uncaught e, mkCursor 2 0,
         [EvLog INFO "Starting Django health watcher...";
          EvGetenv "HEALTH_CHECK_INTERVAL";
          EvGet "http://jopi_app:8000/health/" 10;
          EvLog INFO "Jopi: HEALTHY";
          EvGet "http://synergas_app:8000/health/" 10;
          EvLog WARNING "Synergas: UNHEALTHY (HTTP 503)";
          EvLog WARNING "Some Django apps are unhealthy! (1/2 healthy)"])
      /\ exc_type e = OverflowError)
  /\ (exists e,
         fst (fst (main 3 (env_of (Some "9223372036") all_ok))) = Uncaught e
         /\ exc_type e = OSError).
Proof.
  split.
  - destruct (refused_interval_ends_first_pass
                (env_of (Some "10000000000") jopi_ok_synergas_503)
                10000000000 1%nat (mkCursor 2 0) _ 2%nat
                eq_refl eq_refl eq_refl) as (e & Hmain & Htype & _).
    exists e. split; [exact Hmain | exact Htype].
  - destruct (refused_interval_ends_first_pass
                (env_of (Some "9223372036") all_ok)
                9223372036 2%nat (mkCursor 2 0) _ 2%nat
                eq_refl eq_refl eq_refl) as (e & Hmain & Htype & _).
    exists e. split; [rewrite Hmain; reflexivity | exact Htype].
Defined.

(** *** The tally and the records of a pass *)

Lemma outcomes_length : forall l env k,
  List.length (outcomes env k l) = List.length l.
Proof.
  induction l as [|[app_name url] rest IH]; intros env k; simpl;
    [reflexivity | now rewrite IH].
Qed.

Lemma count_healthy_bound : forall os,
  (count_healthy os <= List.length os)%nat /\
  (count_healthy os = List.length os <-> forallb healthy os = true).
Proof.
  unfold count_healthy. induction os as [|o os (IHle & IHeq)]; simpl.
  - split; [lia | split; reflexivity].
  - destruct (healthy o); simpl.
    + split; [lia|]. rewrite <- IHeq. split; lia.
    + split; [lia|]. split; [lia | discriminate].
Qed.

(** X4.  The tally of a pass that ran to its end never exceeds the number
    of targets, and it reaches that number only when every target
    answered with status 200.  So the record "All Django apps are healthy"
    is among the events of the pass exactly when every target answered
    200, and a single target with another status or with a failed request
    makes the summary the warning one. *)
Theorem tally_bounded :
  forall l z env c H c1 evs,
    for_apps l 0 env c = (Ok H, c1, evs) ->
    let os := outcomes env (n_get c) l in
    let pass := snd (loop_body l z env c) in
    (H <= List.length l)%nat
    /\ (H = List.length l <-> forallb healthy os = true)
    /\ (In (EvLog INFO "All Django apps are healthy") pass
        <-> forallb healthy os = true)
    /\ ((exists o, In o os /\ healthy o = false) ->
        In (EvLog WARNING
              ("Some Django apps are unhealthy! (" ++ str_nat H ++ "/"
                 ++ str_nat (List.length l) ++ " healthy)")) pass).
Proof.
  intros l z env c H c1 evs Hrun os pass.
  pose proof (for_apps_cases l 0%nat env c) as Hcases.
  cbv zeta in Hcases. rewrite Hrun in Hcases.
  destruct Hcases as (_ & _ & _ & HH & Hc & _). simpl in HH. fold os in HH.
  destruct (count_healthy_bound os) as (Hle & Heq).
  pose proof (outcomes_length l env (n_get c)) as Hlen. fold os in Hlen.
  assert (Hiff : H = List.length l <-> forallb healthy os = true).
  { rewrite <- Heq. rewrite HH, Hlen. reflexivity. }
  assert (Hpass : pass = (evs ++ summary_record H (List.length l)
                               :: snd (time_sleep z env c1))%list).
  { apply loop_body_events. exact Hrun. }
  split; [lia|]. split; [exact Hiff|]. split.
  - rewrite <- Hiff, Hpass. unfold summary_record. split.
    + rewrite in_app_iff. intros [Hin | [Hsum | Hin]].
      * pose proof (for_apps_logs_colon l 0%nat env c INFO
                      "All Django apps are healthy") as Hcolon.
        rewrite Hrun in Hcolon. specialize (Hcolon Hin). discriminate Hcolon.
      * destruct (Nat.eqb_spec H (List.length l)) as [E | _];
          [exact E | discriminate Hsum].
      * destruct (time_sleep_events z env c1) as [E | E]; rewrite E in Hin;
          simpl in Hin; [contradiction|].
        destruct Hin as [Hin | []]. discriminate Hin.
    + intros E. apply in_or_app. right. left.
      apply Nat.eqb_eq in E. rewrite E. reflexivity.
  - intros (o & Hin & Hbad).
    assert (Hne : H <> List.length l).
    { intros E. apply Hiff in E. rewrite forallb_forall in E.
      rewrite (E o Hin) in Hbad. discriminate Hbad. }
    rewrite Hpass. apply in_or_app. right. left.
    unfold summary_record. apply Nat.eqb_neq in Hne. rewrite Hne. reflexivity.
Qed.

Lemma tally_bounded_witness :
  In (EvLog WARNING "Some Django apps are unhealthy! (1/2 healthy)")
     (snd (loop_body apps 5 (env_of None jopi_times_out) start)).
Proof.
  destruct (tally_bounded apps 5 (env_of None jopi_times_out) start 1%nat _ _ eq_refl)
    as (_ & _ & _ & Hwarn).
  apply Hwarn. exists (Fails read_timeout). split; [left|]; reflexivity.
Defined.

(** The lines of a pass, target by target. *)
Lemma for_apps_lines :
  forall l hc env c H c1 evs,
    for_apps l hc env c = (Ok H, c1, evs) ->
    Forall2 (fun ao p => line_for (fst ao) (snd ao) p)
            (combine l (outcomes env (n_get c) l))
            (log_records evs).
Proof.
  induction l as [|[app_name url] rest IH]; intros hc env c H c1 evs Hrun.
  - simpl in Hrun. injection Hrun as _ _ <-. constructor.
  - rewrite for_apps_cons, check_health_eq in Hrun. simpl outcomes. simpl combine.
    destruct (http_get env (n_get c) url) as [r | e] eqn:Hget.
    + destruct (status_code r =? 200) eqn:Hstatus;
        (destruct (for_apps rest _ env (after_get c)) as [[r2 c2] evs2] eqn:Hrest;
         injection Hrun as -> -> <-;
         simpl; constructor; [|exact (IH _ _ _ _ _ _ Hrest)]);
        unfold line_for; simpl; rewrite Hstatus.
      * split; [now exists "HEALTHY"|].
        split; [split; reflexivity|].
        split; [discriminate | intros (e & [=])].
      * split; [eexists; reflexivity|].
        split; [split; discriminate|].
        split; [discriminate | intros (e & [=])].
    + destruct (isinstance_Exception e); [|discriminate Hrun].
      destruct (for_apps rest _ env (after_get c)) as [[r2 c2] evs2] eqn:Hrest.
      injection Hrun as -> -> <-.
      simpl. constructor; [|exact (IH _ _ _ _ _ _ Hrest)].
      unfold line_for; simpl.
      split; [eexists; reflexivity|].
      split; [split; discriminate|].
      split; [intros _; now exists e | reflexivity].
Qed.

(** X5.  The line that a pass writes for a target starts with the name of
    that target and a colon.  The lines come in the order of the list, one
    per target; a line is at info level exactly when its target answered
    with status 200, and at error level exactly when its request
    raised. *)
Theorem lines_follow_targets :
  forall l hc env c H c1 evs,
    for_apps l hc env c = (Ok H, c1, evs) ->
    Forall2 (fun ao p => line_for (fst ao) (snd ao) p)
            (combine l (outcomes env (n_get c) l))
            (log_records evs)
    /\ List.length (log_records evs) = List.length l.
Proof.
  intros l hc env c H c1 evs Hrun.
  pose proof (for_apps_lines l hc env c H c1 evs Hrun) as Hlines.
  split; [exact Hlines|].
  apply Forall2_length in Hlines. rewrite <- Hlines, length_combine.
  rewrite outcomes_length. apply Nat.min_id.
Qed.

Lemma lines_follow_targets_witness :
  Forall2 (fun ao p => line_for (fst ao) (snd ao) p)
    [(("Jopi", "http://jopi_app:8000/health/"), Fails read_timeout);
     (("Synergas", "http://synergas_app:8000/health/"), status 200)]
    [(ERROR, "Jopi: ERROR - " ++ exc_str read_timeout);
     (INFO, "Synergas: HEALTHY")].
Proof.
  apply (lines_follow_targets apps 0%nat (env_of None jopi_times_out) start
           1%nat _ _ eq_refl).
Defined.

(** *** The records of a whole run *)

Lemma for_apps_log_count : forall l hc env c H c1 evs,
  for_apps l hc env c = (Ok H, c1, evs) ->
  List.length (log_records evs) = List.length l.
Proof.
  intros l hc env c H c1 evs Hrun.
  pose proof (for_apps_lines l hc env c H c1 evs Hrun) as Hlines.
  apply Forall2_length in Hlines. rewrite <- Hlines, length_combine.
  rewrite outcomes_length. apply Nat.min_id.
Qed.

Lemma while_True_log_count : forall fuel l z env c c1 evs,
  while_True fuel (loop_body l z) env c = (StillLooping, c1, evs) ->
  List.length (log_records evs) = (fuel * S (List.length l))%nat.
Proof.
  induction fuel as [|fuel IH]; intros l z env c c1 evs; simpl.
  - intros [= _ <-]. reflexivity.
  - destruct (loop_body l z env c) as [[[[] | e] c0] evs0] eqn:Hbody;
      [|discriminate].
    destruct (while_True fuel (loop_body l z) env c0) as [[r c2] evs2] eqn:Hrest.
    intros [= -> -> <-].
    rewrite log_records_app, length_app, (IH _ _ _ _ _ _ Hrest).
    unfold loop_body, bind in Hbody.
    destruct (for_apps l 0%nat env c) as [[[H | e] d] probes] eqn:Hrun;
      [|discriminate Hbody].
    pose proof (for_apps_log_count _ _ _ _ _ _ _ Hrun) as Hcount.
    assert (Hsum : exists ev, log_summary l H env d = (Ok tt, d, [ev]) /\
                              List.length (log_records [ev]) = 1%nat).
    { unfold log_summary. destruct (Nat.eqb H (List.length l));
        eexists; split; reflexivity. }
    destruct Hsum as (ev & Hsum & Hone). rewrite Hsum in Hbody.
    pose proof (time_sleep_events z env d) as Hsleep.
    destruct (time_sleep z env d) as [[q k] s]. simpl in Hsleep.
    injection Hbody as _ _ <-.
    change (ev :: s)%list with ([ev] ++ s)%list.
    rewrite !log_records_app, !length_app, Hcount, Hone.
    destruct Hsleep as [-> | ->]; simpl; lia.
Qed.

(** X6.  A run that is still in the loop after [fuel] passes has written
    the startup record and, in each pass, one record per target and one
    summary record: [1 + fuel * (len(apps) + 1)] records, that is three
    per pass. *)
Theorem log_volume :
  forall fuel env c evs,
    main fuel env = (StillLooping, c, evs) ->
    List.length (log_records evs) = (1 + fuel * 3)%nat.
Proof.
  intros fuel env c evs. rewrite main_eq. cbv zeta.
  destruct (int_of_str (configured env)) as [z|]; [|discriminate].
  destruct (while_True fuel (loop_body apps z) env start) as [[r c2] evs2] eqn:Hloop.
  intros [= -> -> <-].
  simpl. f_equal. apply (while_True_log_count fuel apps z env start c evs2 Hloop).
Qed.

Lemma log_volume_witness :
  List.length (log_records (snd (main 4 (env_of None jopi_times_out)))) = 13%nat.
Proof.
  apply (log_volume 4 (env_of None jopi_times_out) (mkCursor 8 4) _ eq_refl).
Defined.

Lemma always_healthy_tally : forall l env k,
  always_healthy env ->
  forallb handled (outcomes env k l) = true /\
  count_healthy (outcomes env k l) = List.length l.
Proof.
  intros l env k Hall.
  assert (Hh : forallb healthy (outcomes env k l) = true).
  { revert k. induction l as [|[app_name url] rest IH]; intros k; simpl;
      [reflexivity | now rewrite Hall, IH]. }
  split.
  - rewrite forallb_forall in Hh |- *. intros o Hin. specialize (Hh o Hin).
    destruct o as [r | e]; [reflexivity | discriminate Hh].
  - rewrite <- (outcomes_length l env k). now apply count_healthy_bound.
Qed.

(** X7.  The levels of a run follow the answers of the targets.  When
    every request is answered with status 200, every record of the run is
    at info level, however long the run.  When every request is answered,
    with whatever status, no record is at error level: an error record is
    written only for a request that raised. *)
Theorem levels_follow_answers :
  forall env fuel,
    (always_healthy env -> Forall only_info (snd (main fuel env)))
    /\ (always_responds env -> Forall not_error (snd (main fuel env))).
Proof.
  intros env fuel. split.
  - intros Hall. apply main_Forall; [repeat constructor|].
    intros z c. unfold loop_body, bind.
    destruct (always_healthy_tally apps env (n_get c) Hall) as (Hhandled & Hcount).
    pose proof (for_apps_cases apps 0%nat env c) as Hcases. cbv zeta in Hcases.
    pose proof (for_apps_Forall only_info env apps) as Hprobes.
    assert (Hcall : forall app_name url d, In (app_name, url) apps ->
                      Forall only_info (snd (check_health app_name url env d))).
    { intros app_name url d _. rewrite check_health_eq.
      pose proof (Hall (n_get d) url) as Hh. unfold healthy in Hh.
      destruct (http_get env (n_get d) url) as [r | e]; [|discriminate Hh].
      rewrite Hh. repeat constructor. }
    specialize (Hprobes Hcall 0%nat c).
    destruct (for_apps apps 0%nat env c) as [[[H | e] c1] evs1];
      simpl in Hprobes; [|exact Hprobes].
    destruct Hcases as (_ & _ & _ & HH & _). rewrite Hcount in HH. subst H.
    unfold log_summary. rewrite Nat.eqb_refl. cbn beta iota delta [logger_info emit].
    pose proof (time_sleep_Forall only_info z env c1 I) as Hsleep.
    destruct (time_sleep z env c1) as [[q k] s]. simpl in Hsleep |- *.
    apply Forall_app. split; [exact Hprobes|].
    constructor; [reflexivity | exact Hsleep].
  - intros Hall. apply main_Forall; [repeat constructor|].
    intros z c. unfold loop_body. apply bind_Forall.
    + apply for_apps_Forall. intros app_name url d _.
      rewrite check_health_eq. destruct (Hall (n_get d) url) as (r & ->).
      destruct (status_code r =? 200); repeat constructor.
    + intros h c'. apply bind_Forall.
      * unfold log_summary. destruct (Nat.eqb h (List.length apps));
          repeat constructor.
      * intros _ c''. apply time_sleep_Forall. exact I.
Qed.

Lemma levels_follow_answers_witness :
  Forall only_info (snd (main 3 (env_of None all_ok)))
  /\ Forall not_error (snd (main 3 (env_of None jopi_ok_synergas_503))).
Proof.
  split.
  - apply (levels_follow_answers (env_of None all_ok) 3).
    intros k url. reflexivity.
  - apply (levels_follow_answers (env_of None jopi_ok_synergas_503) 3).
    intros k url. unfold env_of, jopi_ok_synergas_503. simpl.
    destruct (String.eqb url "http://synergas_app:8000/health/");
      eexists; reflexivity.
Defined.

(** *** No request beyond one per target and pass *)

Lemma for_apps_requests_prefix : forall l hc env c,
  exists n, urls_requested (snd (for_apps l hc env c)) = firstn n (map snd l).
Proof.
  induction l as [|[app_name url] rest IH]; intros hc env c.
  - exists 0%nat. reflexivity.
  - rewrite for_apps_cons.
    pose proof (check_health_projections app_name url env c) as (Hu & _).
    destruct (check_health app_name url env c) as [[[b | e] c'] evs1];
      simpl in Hu.
    + destruct (IH (if b then S hc else hc) env (after_get c)) as (n & Hn).
      destruct (for_apps rest _ env (after_get c)) as [[r c2] evs2].
      simpl in Hn |- *. exists (S n).
      rewrite urls_requested_app, Hu, Hn. reflexivity.
    + exists 1%nat. simpl. rewrite Hu. reflexivity.
Qed.

Lemma loop_body_requests_prefix : forall l z env c,
  exists n, urls_requested (snd (loop_body l z env c)) = firstn n (map snd l).
Proof.
  intros l z env c. destruct (for_apps_requests_prefix l 0%nat env c) as (n & Hn).
  exists n. unfold loop_body, bind.
  destruct (for_apps l 0%nat env c) as [[[H | e] c1] evs1]; simpl in Hn;
    [|exact Hn].
  assert (Hsum : exists ev, log_summary l H env c1 = (Ok tt, c1, [ev]) /\
                            urls_requested [ev] = []).
  { unfold log_summary. destruct (Nat.eqb H (List.length l));
      eexists; split; reflexivity. }
  destruct Hsum as (ev & -> & Hev).
  pose proof (time_sleep_events z env c1) as Hsleep.
  destruct (time_sleep z env c1) as [[q k] s]. simpl in Hsleep |- *.
  change (ev :: s)%list with ([ev] ++ s)%list.
  rewrite !urls_requested_app, Hev, Hn.
  destruct Hsleep as [-> | ->]; simpl; now rewrite app_nil_r.
Qed.

Lemma loop_body_sleeps_at_most_once : forall l z env c,
  (List.length (sleeps (snd (loop_body l z env c))) <= 1)%nat.
Proof.
  intros l z env c. unfold loop_body, bind.
  pose proof (for_apps_cases l 0%nat env c) as Hcases. cbv zeta in Hcases.
  destruct (for_apps l 0%nat env c) as [[[H | e] c1] evs1];
    destruct Hcases as (Hs & _); simpl; [|rewrite Hs; simpl; lia].
  assert (Hsum : exists ev, log_summary l H env c1 = (Ok tt, c1, [ev]) /\
                            sleeps [ev] = []).
  { unfold log_summary. destruct (Nat.eqb H (List.length l));
      eexists; split; reflexivity. }
  destruct Hsum as (ev & -> & Hev).
  pose proof (time_sleep_events z env c1) as Hsleep.
  destruct (time_sleep z env c1) as [[q k] s]. simpl in Hsleep |- *.
  change (ev :: s)%list with ([ev] ++ s)%list.
  rewrite !sleeps_app, Hev, Hs.
  destruct Hsleep as [-> | ->]; simpl; lia.
Qed.

Lemma while_True_request_bound : forall fuel l z env c,
  (List.length (urls_requested (snd (while_True fuel (loop_body l z) env c)))
     <= fuel * List.length l)%nat /\
  (List.length (sleeps (snd (while_True fuel (loop_body l z) env c))) <= fuel)%nat.
Proof.
  induction fuel as [|fuel IH]; intros l z env c; simpl.
  - split; lia.
  - destruct (loop_body_requests_prefix l z env c) as (n & Hn).
    pose proof (loop_body_sleeps_at_most_once l z env c) as Hone.
    destruct (loop_body l z env c) as [[r c1] evs1].
    simpl in Hn, Hone.
    assert (Hle : (List.length (urls_requested evs1) <= List.length l)%nat).
    { rewrite Hn, length_firstn, length_map. lia. }
    destruct r as [[] | e].
    + destruct (IH l z env c1) as (IHu & IHs).
      destruct (while_True fuel (loop_body l z) env c1) as [[r c2] evs2].
      simpl in IHu, IHs |- *.
      rewrite urls_requested_app, sleeps_app, !length_app. lia.
    + simpl. split; lia.
Qed.

(** X8.  The script never retries and never probes out of order, also in
    a pass that is cut short: the URLs requested in one pass are an
    initial segment of the URLs of the list, in order.  A run of at most
    [fuel] passes, however it ends, has made at most [fuel * len(apps)]
    requests and slept at most [fuel] times. *)
Theorem requests_bounded :
  (forall l z env c,
      exists n,
        urls_requested (snd (loop_body l z env c)) = firstn n (map snd l))
  /\ (forall fuel env,
         (List.length (urls_requested (snd (main fuel env)))
            <= fuel * List.length apps)%nat
         /\ (List.length (sleeps (snd (main fuel env))) <= fuel)%nat).
Proof.
  split; [exact loop_body_requests_prefix|].
  intros fuel env. rewrite main_eq. cbv zeta.
  destruct (int_of_str (configured env)) as [z|]; [|simpl; split; lia].
  pose proof (while_True_request_bound fuel apps z env start) as Hloop.
  destruct (while_True fuel (loop_body apps z) env start) as [[r c] evs].
  simpl in Hloop |- *. exact Hloop.
Qed.
